(** * MECOBE dashboard: spreadsheet ingestion, classification and filtering

    A shallow embedding of [excel-loader.js] (the [ExcelLoader] module:
    [utils], [dataProcessor], [mainLoader]) and of the filter evaluation of
    [dashboard.js] ([filtersModule.applyFilters]), followed by the properties
    of the specification that concern them.

    Conventions of the embedding.
    - A JavaScript string is the list of its UTF-16 code units ([jsstring]).
    - A JavaScript number is [NaN], one of the two infinities, or a finite
      value; finite values are kept as exact rationals.  The comparisons with
      the thresholds 60, 80 and 40 and [Math.round] are exact on doubles, so
      they agree with the rationals; the rounding of a decimal literal to the
      nearest double done by [parseFloat] is not modelled.
    - [Math.random] reads an explicit source of draws, threaded through the
      code in the order in which the program calls it.
    - A thrown [Error] is the [Throw] case of [result]. *)

From Stdlib Require Import List Bool Arith Lia NArith ZArith QArith Qround Lqa.
From Stdlib Require Import Strings.String Strings.Ascii.
From Stdlib Require Import Sorting.Sorted Qabs.
Import ListNotations.

Set Implicit Arguments.
Close Scope Q_scope.
Open Scope nat_scope.

(** ** Strings *)

Module JsString.

Definition jsstring := list N.

(** An ASCII literal as a list of code units. *)
Definition str (s : string) : jsstring :=
  List.map N_of_ascii (list_ascii_of_string s).

Fixpoint eqb (a b : jsstring) : bool :=
  match a, b with
  | [], [] => true
  | x :: a', y :: b' => N.eqb x y && eqb a' b'
  | _, _ => false
  end.

(** WhiteSpace and LineTerminator code points, the characters removed by
    [String.prototype.trim] and skipped by [parseFloat]. *)
Definition isWhiteSpace (c : N) : bool :=
  ((9 <=? c) && (c <=? 13) || (c =? 32) || (c =? 160) || (c =? 5760)
   || (8192 <=? c) && (c <=? 8202) || (c =? 8232) || (c =? 8233)
   || (c =? 8239) || (c =? 8287) || (c =? 12288) || (c =? 65279))%N.

Fixpoint trimStart (s : jsstring) : jsstring :=
  match s with
  | [] => []
  | c :: t => if isWhiteSpace c then trimStart t else s
  end.

Definition trimEnd (s : jsstring) : jsstring := rev (trimStart (rev s)).

Definition trim (s : jsstring) : jsstring := trimEnd (trimStart s).

(** Lower-casing of one code unit: the letters of ASCII and of the Latin-1
    supplement (the range of the Portuguese texts of the sheets); every other
    code unit is left as it is. *)
Definition lowerUnit (c : N) : N :=
  (if (65 <=? c) && (c <=? 90) then c + 32
   else if (192 <=? c) && (c <=? 222) && negb (c =? 215) then c + 32
   else c)%N.

Definition toLowerCase (s : jsstring) : jsstring := List.map lowerUnit s.

Fixpoint startsWith (s pat : jsstring) : bool :=
  match pat, s with
  | [], _ => true
  | p :: pat', c :: s' => N.eqb c p && startsWith s' pat'
  | _ :: _, [] => false
  end.

(** [s.includes(pat)] *)
Fixpoint includes (s pat : jsstring) : bool :=
  startsWith s pat ||
  match s with
  | [] => false
  | _ :: t => includes t pat
  end.

(** [s.replace(pat, rep)] with a string pattern: only the first occurrence
    is replaced. *)
Fixpoint replace (s pat rep : jsstring) : jsstring :=
  if startsWith s pat then rep ++ skipn (List.length pat) s
  else match s with
       | [] => []
       | c :: t => c :: replace t pat rep
       end.

(** [arr.includes(x)] on an array of strings. *)
Definition arrayIncludes (arr : list jsstring) (x : jsstring) : bool :=
  existsb (fun y => eqb y x) arr.

End JsString.
Import JsString.

(** ** Numbers *)

Module JsNumber.

Inductive number : Type :=
| NaN
| PosInf
| NegInf
| Fin (q : Q).

Definition ofZ (z : Z) : number := Fin (inject_Z z).

(** The relational comparison of two numbers; [None] when one is [NaN]. *)
Definition compare (x y : number) : option comparison :=
  match x, y with
  | NaN, _ | _, NaN => None
  | PosInf, PosInf | NegInf, NegInf => Some Eq
  | PosInf, _ | _, NegInf => Some Gt
  | NegInf, _ | _, PosInf => Some Lt
  | Fin a, Fin b => Some (Qcompare a b)
  end.

(** [x < y], [x > y], [x >= y] *)
Definition ltb (x y : number) : bool :=
  match compare x y with Some Lt => true | _ => false end.

Definition gtb (x y : number) : bool :=
  match compare x y with Some Gt => true | _ => false end.

Definition geb (x y : number) : bool :=
  match compare x y with Some Gt | Some Eq => true | _ => false end.

(** ToBoolean of a number: [NaN] and zero are falsy. *)
Definition truthy (x : number) : bool :=
  match x with
  | NaN => false
  | Fin q => negb (Qeq_bool q 0)
  | _ => true
  end.

(** [x || y] on numbers. *)
Definition or (x y : number) : number := if truthy x then x else y.

(** [Math.round]: the nearest integer, ties towards +Infinity. *)
Definition Math_round (x : number) : number :=
  match x with
  | Fin q => ofZ (Qfloor (q + (1 # 2)))
  | _ => x
  end.

End JsNumber.
Import JsNumber.

(** ** Values, [parseFloat] and the random source *)

(** The values that reach the numeric code of the loader: a cell of the
    sheet is a string, an index outside the row reads [undefined], and a
    substituted random value is a number. *)
Inductive value : Type :=
| VUndefined
| VString (s : jsstring)
| VNumber (n : number).

Definition truthy (v : value) : bool :=
  match v with
  | VUndefined => false
  | VString s => negb (Nat.eqb (List.length s) 0)
  | VNumber n => JsNumber.truthy n
  end.

Module ParseFloat.

Definition isDigit (c : N) : bool := ((48 <=? c) && (c <=? 57))%N.

(** The longest run of decimal digits at the head of [s], and the rest. *)
Fixpoint takeDigits (s : jsstring) : list N * jsstring :=
  match s with
  | c :: t =>
      if isDigit c then let '(ds, r) := takeDigits t in (c :: ds, r)
      else ([], s)
  | [] => ([], [])
  end.

Definition digitsValue (ds : list N) : Z :=
  fold_left (fun acc d => 10 * acc + (Z.of_N d - 48))%Z ds 0%Z.

(** An optional sign at the head of [s]: [true] for [-]. *)
Definition takeSign (s : jsstring) : bool * jsstring :=
  match s with
  | 43%N :: t => (false, t)
  | 45%N :: t => (true, t)
  | _ => (false, s)
  end.

(** The exponent part [e], sign, digits; it belongs to the literal only when at least
    one digit follows, otherwise the literal ends before the [e]. *)
Definition takeExponent (s : jsstring) : Z :=
  match s with
  | c :: t =>
      if ((c =? 101) || (c =? 69))%N then
        let '(neg, t') := takeSign t in
        let '(ds, _) := takeDigits t' in
        match ds with
        | [] => 0%Z
        | _ => if neg then (- digitsValue ds)%Z else digitsValue ds
        end
      else 0%Z
  | [] => 0%Z
  end.

(** [m * 10^e] as a rational. *)
Definition scale10 (m e : Z) : Q :=
  if (0 <=? e)%Z then inject_Z (m * 10 ^ e)
  else Qmake m (Z.to_pos (10 ^ (- e))).

(** [parseFloat] of a string: leading white space is skipped and the longest
    prefix that is a StrDecimalLiteral is converted; [NaN] when there is no
    such prefix. *)
Definition ofString (s : jsstring) : number :=
  let '(neg, r) := takeSign (trimStart s) in
  if startsWith r (str "Infinity") then (if neg then NegInf else PosInf)
  else
    let '(ints, r1) := takeDigits r in
    let '(fracs, r2) :=
      match r1 with
      | 46%N :: t => takeDigits t
      | _ => ([], r1)
      end in
    match ints, fracs with
    | [], [] => NaN
    | _, _ =>
        let m := digitsValue (ints ++ fracs) in
        let e := (takeExponent r2 - Z.of_nat (List.length fracs))%Z in
        Fin (scale10 (if neg then (- m)%Z else m) e)
    end.

End ParseFloat.

(** [parseFloat(v)]: the argument is first converted to a string.  A number
    converted to a string and parsed again is the same number; ["undefined"]
    has no numeric prefix. *)
Definition parseFloat (v : value) : number :=
  match v with
  | VUndefined => NaN
  | VString s => ParseFloat.ofString s
  | VNumber n => n
  end.

(** The source of [Math.random]: the sequence of draws in [0,1) and how many
    of them were consumed. *)
Record RandomSource : Type := mkRandom {
  draws : nat -> Q;
  consumed : nat
}.

Definition Rand (A : Type) : Type := RandomSource -> A * RandomSource.

Definition ret {A} (a : A) : Rand A := fun g => (a, g).

Definition bind {A B} (m : Rand A) (k : A -> Rand B) : Rand B :=
  fun g => let '(a, g') := m g in k a g'.

Notation "x <- m ;; k" := (bind m (fun x => k))
  (at level 61, m at next level, right associativity).

(** [Math.random() * 100] *)
Definition random100 : Rand number :=
  fun g => (Fin (draws g (consumed g) * 100),
            mkRandom (draws g) (S (consumed g))).

(** ** [excel-loader.js]: [utils] *)

Module Utils.

(** [normalizeString]: the callers pass strings; the empty string is the
    only falsy one. *)
Definition normalizeString (s : jsstring) : jsstring :=
  match s with
  | [] => []
  | _ => toLowerCase (trim s)
  end.

(** The entries of [specialtyMap], in declaration order (the order in which
    [Object.entries] lists them). *)
Definition specialtyMap : list (jsstring * jsstring) :=
  List.map (fun kv => (str (fst kv), str (snd kv)))
  [ ("cardiologia", "cardiologia"); ("cardio", "cardiologia");
    ("neurologia", "neurologia"); ("neuro", "neurologia");
    ("ortopedia", "ortopedia"); ("orto", "ortopedia");
    ("ginecologia", "ginecologia"); ("gineco", "ginecologia");
    ("urologia", "urologia"); ("uro", "urologia");
    ("dermatologia", "dermatologia"); ("derma", "dermatologia");
    ("gastroenterologia", "gastroenterologia");
    ("gastro", "gastroenterologia");
    ("endocrinologia", "endocrinologia"); ("endocrino", "endocrinologia");
    ("pneumologia", "pneumologia"); ("pneumo", "pneumologia");
    ("reumatologia", "reumatologia"); ("reuma", "reumatologia");
    ("oncologia", "oncologia"); ("onco", "oncologia");
    ("pediatria", "pediatria"); ("pediatra", "pediatria");
    ("psiquiatria", "psiquiatria"); ("psiquiatra", "psiquiatria");
    ("oftalmologia", "oftalmologia"); ("oftalmo", "oftalmologia");
    ("nefrologia", "nefrologia"); ("nefro", "nefrologia");
    ("infectologia", "infectologia"); ("infectologista", "infectologia");
    ("hematologia", "hematologia"); ("hemato", "hematologia");
    ("geriatria", "geriatria"); ("geriatra", "geriatria");
    ("anestesiologia", "anestesiologia"); ("anestesista", "anestesiologia");
    ("radiologia", "radiologia"); ("radiologo", "radiologia");
    ("patologia", "patologia"); ("patologo", "patologia");
    ("cirurgia", "cirurgia-geral"); ("cirurgiao", "cirurgia-geral");
    ("medicina interna", "medicina-interna");
    ("clinica", "medicina-interna"); ("clinico", "medicina-interna")
  ]%string.

Definition parseSpecialty (text : jsstring) : jsstring :=
  match text with
  | [] => str "outras"
  | _ =>
      let normalized := normalizeString text in
      match find (fun kv => includes normalized (fst kv)) specialtyMap with
      | Some kv => snd kv
      | None => str "outras"
      end
  end.

Definition parseSegment (volume affinity : value) : jsstring :=
  let vol := JsNumber.or (parseFloat volume) (ofZ 0) in
  let aff := JsNumber.or (parseFloat affinity) (ofZ 0) in
  if geb vol (ofZ 60) && geb aff (ofZ 60) then str "blindar"
  else if ltb vol (ofZ 60) && geb aff (ofZ 60) then str "incentivar"
  else if geb vol (ofZ 60) && ltb aff (ofZ 60) then str "avaliar"
  else str "conquistar".

Definition parsePriority (volume affinity : value) (segment : jsstring)
  : jsstring :=
  let vol := JsNumber.or (parseFloat volume) (ofZ 0) in
  let aff := JsNumber.or (parseFloat affinity) (ofZ 0) in
  if JsString.eqb segment (str "blindar") then str "strategic"
  else if gtb vol (ofZ 80) || gtb aff (ofZ 80) then str "high"
  else if ltb vol (ofZ 40) && ltb aff (ofZ 40) then str "new-opportunities"
  else str "strategic".

End Utils.

(** ** The Doctor record *)

Record Doctor : Type := mkDoctor {
  id : nat;
  name : jsstring;
  specialty : jsstring;
  segment : jsstring;
  volume : number;
  affinity : number;
  priority : jsstring;
  originalRow : option nat  (* absent in the built-in sample entries *)
}.

(** ** [excel-loader.js]: [dataProcessor] *)

(** The outcome of code that may throw. *)
Inductive result (A : Type) : Type :=
| Ok (a : A)
| Throw (message : jsstring).
Arguments Ok {A} a.
Arguments Throw {A} message.

Module DataProcessor.

(** The column map: [None] is the initial [null]. *)
Record ColumnMap : Type := mkColumnMap {
  cm_name : option nat;
  cm_specialty : option nat;
  cm_volume : option nat;
  cm_affinity : option nat
}.

Definition anyIncludes (s : jsstring) (keys : list jsstring) : bool :=
  existsb (includes s) keys.

Definition nameKeys : list jsstring :=
  [str "nome"; str "medico"; str "doutor"; str "profissional"].
(** The third key is ["especialização"]: c-cedilla is 231, a-tilde is 227. *)
Definition specialtyKeys : list jsstring :=
  [str "especialidade"; str "area";
   str "especializa" ++ [231%N; 227%N] ++ str "o"].
Definition volumeKeys : list jsstring :=
  [str "volume"; str "consultas"; str "atendimentos"].
Definition affinityKeys : list jsstring :=
  [str "afinidade"; str "relacionamento"; str "engajamento"].

(** The body of the [forEach] callback of [identifyColumns]. *)
Definition identifyStep (columnMap : ColumnMap) (header : jsstring)
  (index : nat) : ColumnMap :=
  let normalizedHeader := Utils.normalizeString header in
  let m1 := if anyIncludes normalizedHeader nameKeys
            then mkColumnMap (Some index) (cm_specialty columnMap)
                   (cm_volume columnMap) (cm_affinity columnMap)
            else columnMap in
  let m2 := if anyIncludes normalizedHeader specialtyKeys
            then mkColumnMap (cm_name m1) (Some index)
                   (cm_volume m1) (cm_affinity m1)
            else m1 in
  let m3 := if anyIncludes normalizedHeader volumeKeys
            then mkColumnMap (cm_name m2) (cm_specialty m2)
                   (Some index) (cm_affinity m2)
            else m2 in
  if anyIncludes normalizedHeader affinityKeys
  then mkColumnMap (cm_name m3) (cm_specialty m3) (cm_volume m3) (Some index)
  else m3.

Fixpoint identifyFrom (headers : list jsstring) (index : nat)
  (columnMap : ColumnMap) : ColumnMap :=
  match headers with
  | [] => columnMap
  | header :: rest =>
      identifyFrom rest (S index) (identifyStep columnMap header index)
  end.

Definition identifyColumns (headers : list jsstring) : ColumnMap :=
  identifyFrom headers 0 (mkColumnMap None None None None).

(** [!columnMap.name]: true for [null] and for the index 0. *)
Definition notIndex (i : option nat) : bool :=
  match i with
  | None => true
  | Some 0 => true
  | Some (S _) => false
  end.

(** [row[i]]: [undefined] for the key [null] and beyond the end of the row. *)
Definition cell (row : list jsstring) (i : option nat) : value :=
  match i with
  | None => VUndefined
  | Some k => match nth_error row k with
              | Some s => VString s
              | None => VUndefined
              end
  end.

(** [v || Math.random() * 100]; the right operand is evaluated, and a draw
    consumed, only when [v] is falsy. *)
Definition orRandom (v : value) : Rand value :=
  if truthy v then ret v else (r <- random100 ;; ret (VNumber r)).

Definition numberOrRandom (n : number) : Rand number :=
  if JsNumber.truthy n then ret n else random100.

Definition processRow (row headers : list jsstring) (rowNumber : nat)
  : Rand (option Doctor) :=
  let columnMap := identifyColumns headers in
  if notIndex (cm_name columnMap) then ret None
  else
    match cell row (cm_name columnMap) with
    | VString name =>
        if negb (truthy (VString name))
           || Nat.eqb (List.length (Utils.normalizeString name)) 0
        then ret None
        else
          let specialty :=
            match cell row (cm_specialty columnMap) with
            | VString s => s
            | _ => []
            end in
          volume <- orRandom (cell row (cm_volume columnMap)) ;;
          affinity <- orRandom (cell row (cm_affinity columnMap)) ;;
          let processedSpecialty := Utils.parseSpecialty specialty in
          processedVolume <- numberOrRandom (parseFloat volume) ;;
          processedAffinity <- numberOrRandom (parseFloat affinity) ;;
          let segment :=
            Utils.parseSegment (VNumber processedVolume)
              (VNumber processedAffinity) in
          let priority :=
            Utils.parsePriority (VNumber processedVolume)
              (VNumber processedAffinity) segment in
          ret (Some (mkDoctor rowNumber (trim name) processedSpecialty segment
                       (Math_round processedVolume)
                       (Math_round processedAffinity)
                       priority (Some rowNumber)))
    | _ => ret None
    end.

(** The [forEach] over the data rows: [index] is the position of the row
    among them and [processedDoctors] the array filled so far.  On a grid of
    strings [processRow] has no throwing path, so the [catch] around it is
    never entered. *)
Fixpoint forEachRow (dataRows : list (list jsstring)) (headers : list jsstring)
  (index : nat) (processedDoctors : list Doctor) : Rand (list Doctor) :=
  match dataRows with
  | [] => ret processedDoctors
  | row :: rest =>
      doctor <- processRow row headers (index + 2) ;;
      forEachRow rest headers (S index)
        (match doctor with
         | Some d => processedDoctors ++ [d]
         | None => processedDoctors
         end)
  end.

Definition processRawData (rawData : list (list jsstring))
  : Rand (result (list Doctor)) :=
  match rawData with
  | headers :: ((_ :: _) as dataRows) =>
      processedDoctors <- forEachRow dataRows headers 0 [] ;;
      ret (Ok processedDoctors)
  | _ => ret (Throw (str "Dados insuficientes na planilha"))
  end.

End DataProcessor.

(** ** [excel-loader.js]: [fileLoader], [excelParser] and [mainLoader] *)

Definition bindResult {A B} (m : result A) (k : A -> result B) : result B :=
  match m with
  | Ok a => k a
  | Throw message => Throw message
  end.

Notation "x <-! m ;; k" := (bindResult m (fun x => k))
  (at level 61, m at next level, right associativity).

Module MainLoader.

Section Collaborators.

(** What the browser and the SheetJS library provide. *)
Variables ArrayBuffer Worksheet : Type.

Record Response : Type := mkResponse {
  ok : bool;
  status : jsstring;       (* the status code, as the message prints it *)
  statusText : jsstring;
  arrayBuffer : result ArrayBuffer
}.

Record Workbook : Type := mkWorkbook {
  SheetNames : list jsstring;
  Sheets : list (jsstring * Worksheet)
}.

Record XLSXLibrary : Type := mkXLSX {
  read : ArrayBuffer -> result Workbook;
  sheet_to_json : Worksheet -> result (list (list jsstring))
}.

Record Config : Type := mkConfig {
  excelFilePath : jsstring;
  sheetName : option jsstring
}.

Variable fetch : jsstring -> result Response.
(** [None] when [typeof XLSX === 'undefined']. *)
Variable XLSX : option XLSXLibrary.
Variable CONFIG : Config.

(** [a || b] where [a] is a string or [null]. *)
Definition orString (a : option jsstring) (b : option jsstring)
  : option jsstring :=
  match a with
  | Some (_ :: _) => a
  | _ => b
  end.

Definition loadExcelFile (filePath : jsstring) : result ArrayBuffer :=
  response <-! fetch filePath ;;
  if negb (ok response)
  then Throw (str "Erro HTTP: " ++ status response ++ str " - "
              ++ statusText response)
  else arrayBuffer response.

Definition parseWorkbook (buffer : ArrayBuffer) : result Workbook :=
  match XLSX with
  | None =>
      Throw (str "Biblioteca SheetJS n" ++ [227%N] ++ str "o encontrada. "
             ++ str "Carregue https://cdnjs.cloudflare.com/ajax/libs/xlsx/"
             ++ str "0.18.5/xlsx.full.min.js")
  | Some lib => read lib buffer
  end.

(** A sheet name as a property key and in a template: [undefined] is
    written ["undefined"]. *)
Definition keyOf (key : option jsstring) : jsstring :=
  match key with
  | Some s => s
  | None => str "undefined"
  end.

(** [workbook.Sheets[key]] *)
Definition sheetOf (workbook : Workbook) (key : option jsstring)
  : option Worksheet :=
  option_map snd
    (find (fun e => JsString.eqb (fst e) (keyOf key)) (Sheets workbook)).

Definition extractSheetData (workbook : Workbook) (name : option jsstring)
  : result (list (list jsstring)) :=
  let targetSheet := orString name (nth_error (SheetNames workbook) 0) in
  match sheetOf workbook targetSheet, XLSX with
  | Some worksheet, Some lib => sheet_to_json lib worksheet
  | Some _, None => Throw (str "XLSX is not defined")
  | None, _ =>
      Throw (str "Planilha " ++ [34%N] ++ keyOf targetSheet ++ [34%N]
             ++ str " n" ++ [227%N] ++ str "o encontrada")
  end.

Definition getFallbackData : list Doctor :=
  [ mkDoctor 1 (str "Dr. Jo" ++ [227%N] ++ str "o Silva") (str "cardiologia")
      (str "blindar") (ofZ 85) (ofZ 90) (str "high") None;
    mkDoctor 2 (str "Dra. Maria Santos") (str "neurologia")
      (str "blindar") (ofZ 82) (ofZ 88) (str "high") None;
    mkDoctor 3 (str "Dr. Pedro Oliveira") (str "ortopedia")
      (str "incentivar") (ofZ 45) (ofZ 88) (str "new-opportunities") None ].

(** The body of the [try] block of [loadData]: the stages before the
    record building draw no random number. *)
Definition loadStages (filePath : option jsstring)
  : result (list (list jsstring)) :=
  let targetPath := orString filePath (Some (excelFilePath CONFIG)) in
  buffer <-! loadExcelFile (keyOf targetPath) ;;
  workbook <-! parseWorkbook buffer ;;
  extractSheetData workbook (sheetName CONFIG).

Definition tryLoad (filePath : option jsstring)
  : Rand (result (list Doctor)) :=
  match loadStages filePath with
  | Ok rawData => DataProcessor.processRawData rawData
  | Throw message => ret (Throw message)
  end.

(** [loadData]: the [catch] turns every throw of the [try] block into the
    built-in sample. *)
Definition loadData (filePath : option jsstring) : Rand (list Doctor) :=
  outcome <- tryLoad filePath ;;
  match outcome with
  | Ok processedData => ret processedData
  | Throw _ => ret getFallbackData
  end.

End Collaborators.

End MainLoader.

(** ** [dashboard.js]: [filtersModule] *)

Module Filters.

(** [currentFilters]; only the [min] of the two ranges is read. *)
Record FilterState : Type := mkFilterState {
  f_search : jsstring;
  f_segments : list jsstring;
  f_specialty : jsstring;
  f_volume_min : number;
  f_affinity_min : number;
  f_quickFilters : list jsstring
}.

Definition nonEmpty {A} (l : list A) : bool :=
  negb (Nat.eqb (List.length l) 0).

(** The predicate of the quick-filter stage. *)
Definition quickMatch (quickFilters : list jsstring) (doctor : Doctor)
  : bool :=
  existsb (fun f => JsString.eqb (priority doctor)
                      (replace f (str "-") (str "_")))
          quickFilters.

(** [applyFilters], up to the list handed to the rendering code. *)
Definition applyFilters (doctors : list Doctor) (currentFilters : FilterState)
  : list Doctor :=
  let filteredDoctors := doctors in
  let filteredDoctors :=
    if nonEmpty (f_search currentFilters)
    then filter (fun doctor =>
                   includes (toLowerCase (name doctor))
                            (toLowerCase (f_search currentFilters)))
                filteredDoctors
    else filteredDoctors in
  let filteredDoctors :=
    if nonEmpty (f_segments currentFilters)
    then filter (fun doctor =>
                   arrayIncludes (f_segments currentFilters) (segment doctor))
                filteredDoctors
    else filteredDoctors in
  let filteredDoctors :=
    if nonEmpty (f_specialty currentFilters)
    then filter (fun doctor =>
                   JsString.eqb (specialty doctor)
                                (f_specialty currentFilters))
                filteredDoctors
    else filteredDoctors in
  let filteredDoctors :=
    filter (fun doctor => geb (volume doctor) (f_volume_min currentFilters))
           filteredDoctors in
  let filteredDoctors :=
    filter (fun doctor => geb (affinity doctor)
                              (f_affinity_min currentFilters))
           filteredDoctors in
  if nonEmpty (f_quickFilters currentFilters)
  then filter (quickMatch (f_quickFilters currentFilters)) filteredDoctors
  else filteredDoctors.

End Filters.

(** ** Auxiliary notions for the properties *)

(** The values of [processedVolume] and [processedAffinity] in [processRow]
    (the four statements that may call [Math.random], in their order). *)
Definition processedNumbers (row headers : list jsstring)
  : Rand (number * number) :=
  let columnMap := DataProcessor.identifyColumns headers in
  let volumeCell :=
    DataProcessor.cell row (DataProcessor.cm_volume columnMap) in
  let affinityCell :=
    DataProcessor.cell row (DataProcessor.cm_affinity columnMap) in
  volume <- DataProcessor.orRandom volumeCell ;;
  affinity <- DataProcessor.orRandom affinityCell ;;
  processedVolume <- DataProcessor.numberOrRandom (parseFloat volume) ;;
  processedAffinity <- DataProcessor.numberOrRandom (parseFloat affinity) ;;
  ret (processedVolume, processedAffinity).

(** A value that [Math.round] carries over the threshold 60: it lies in
    [59.5, 60). *)
Definition roundsAcross60 (x : number) : bool :=
  match x with
  | Fin q => Qle_bool (119 # 2) q && negb (Qle_bool 60 q)
  | _ => false
  end.

(** A header matches the name patterns of [identifyColumns]. *)
Definition isNameHeader (header : jsstring) : bool :=
  DataProcessor.anyIncludes (Utils.normalizeString header)
    DataProcessor.nameKeys.

(** [updateVolumeRange] and [updateAffinityRange], on the filter state. *)
Definition updateVolumeRange (value : number) (f : Filters.FilterState)
  : Filters.FilterState :=
  Filters.mkFilterState (Filters.f_search f) (Filters.f_segments f)
    (Filters.f_specialty f) value (Filters.f_affinity_min f)
    (Filters.f_quickFilters f).

Definition updateAffinityRange (value : number) (f : Filters.FilterState)
  : Filters.FilterState :=
  Filters.mkFilterState (Filters.f_search f) (Filters.f_segments f)
    (Filters.f_specialty f) (Filters.f_volume_min f) value
    (Filters.f_quickFilters f).

(** The sheet of scenario A, and the same sheet with a first column before
    the name. *)
Definition scenarioA : list (list jsstring) :=
  [ [str "Nome"; str "Especialidade"; str "Volume"; str "Afinidade"];
    [str "Dr. Teste"; str "Cardio"; str "85"; str "90"] ].

Definition scenarioA_shifted : list (list jsstring) :=
  [ [str "Id"; str "Nome"; str "Especialidade"; str "Volume";
     str "Afinidade"];
    [str "1"; str "Dr. Teste"; str "Cardio"; str "85"; str "90"] ].

(** A source whose every draw is 1/2. *)
Definition halves : RandomSource := mkRandom (fun _ => (1 # 2)%Q) 0.

(** A sheet whose volume cell holds a fraction just below the threshold. *)
Definition fractionSheet : list (list jsstring) :=
  [ [str "Id"; str "Nome"; str "Volume"; str "Afinidade"];
    [str "1"; str "Dr. A"; str "59.5"; str "90"] ].

(** A sheet whose volume cell holds the number zero. *)
Definition zeroSheet : list (list jsstring) :=
  [ [str "Id"; str "Nome"; str "Volume"; str "Afinidade"];
    [str "1"; str "Dr. A"; str "0"; str "50"] ].

(** A name cell that makes [processRow] skip the row: missing, empty, or
    white space only. *)
Definition blankNameCell (v : value) : Prop :=
  match v with
  | VUndefined => True
  | VString nm => trim nm = []
  | VNumber _ => False
  end.

(** A sheet with a blank name in its second data row. *)
Definition blankNameSheet : list (list jsstring) :=
  [ [str "Id"; str "Nome"; str "Volume"; str "Afinidade"];
    [str "1"; str "Dr. A"; str "70"; str "50"];
    [str "2"; str "   "; str "10"; str "20"];
    [str "3"; str "Dr. C"; str "30"; str "90"] ].

(** A browser and a library whose workbook has one sheet, [Plan1], holding
    the given grid. *)
Definition sampleFetch (path : jsstring) : result (MainLoader.Response unit) :=
  Ok (MainLoader.mkResponse true (str "200") (str "OK") (Ok tt)).

Definition sampleXLSX (grid : list (list jsstring))
  : MainLoader.XLSXLibrary unit (list (list jsstring)) :=
  MainLoader.mkXLSX
    (fun _ => Ok (MainLoader.mkWorkbook [str "Plan1"] [(str "Plan1", grid)]))
    (fun worksheet => Ok worksheet).

Definition sampleConfig : MainLoader.Config :=
  MainLoader.mkConfig (str "./data/planilha.xlsx") None.

(** The filter state after [clearAllFilters] has reset it. *)
Definition clearedFilters : Filters.FilterState :=
  Filters.mkFilterState [] [] [] (ofZ 0) (ofZ 0) [].

(** All the conditions of [applyFilters] on one Doctor. *)
Definition passes (f : Filters.FilterState) (doctor : Doctor) : bool :=
  (if Filters.nonEmpty (Filters.f_search f)
   then includes (toLowerCase (name doctor)) (toLowerCase (Filters.f_search f))
   else true)
  && (if Filters.nonEmpty (Filters.f_segments f)
      then arrayIncludes (Filters.f_segments f) (segment doctor)
      else true)
  && (if Filters.nonEmpty (Filters.f_specialty f)
      then JsString.eqb (specialty doctor) (Filters.f_specialty f)
      else true)
  && geb (volume doctor) (Filters.f_volume_min f)
  && geb (affinity doctor) (Filters.f_affinity_min f)
  && (if Filters.nonEmpty (Filters.f_quickFilters f)
      then Filters.quickMatch (Filters.f_quickFilters f) doctor
      else true).

(** ** [dashboard.js]: [medicalData] *)

(** [x <= y] on numbers. *)
Definition number_leb (x y : number) : bool :=
  match JsNumber.compare x y with
  | Some Lt | Some Eq => true
  | _ => false
  end.

Module MedicalData.

(** The [doctors] and [isLoaded] fields of the [medicalData] object. *)
Record State : Type := mkState {
  doctors : list Doctor;
  isLoaded : bool
}.

Definition getFallbackData : list Doctor :=
  [ mkDoctor 1 (str "Dr. Jo" ++ [227%N] ++ str "o Silva") (str "cardiologia")
      (str "blindar") (ofZ 85) (ofZ 90) (str "high") None;
    mkDoctor 2 (str "Dra. Maria Santos") (str "neurologia")
      (str "blindar") (ofZ 82) (ofZ 88) (str "high") None;
    mkDoctor 3 (str "Dr. Pedro Oliveira") (str "ortopedia")
      (str "blindar") (ofZ 79) (ofZ 85) (str "high") None;
    mkDoctor 4 (str "Dra. Ana Costa") (str "ginecologia")
      (str "blindar") (ofZ 87) (ofZ 92) (str "strategic") None;
    mkDoctor 5 (str "Dr. Carlos Ferreira") (str "urologia")
      (str "blindar") (ofZ 83) (ofZ 89) (str "high") None;
    mkDoctor 11 (str "Dr. Andr" ++ [233%N] ++ str " Ribeiro")
      (str "oncologia")
      (str "incentivar") (ofZ 45) (ofZ 88) (str "new-opportunities") None;
    mkDoctor 12 (str "Dra. Beatriz Gomes") (str "pediatria")
      (str "incentivar") (ofZ 42) (ofZ 85) (str "new-opportunities") None;
    mkDoctor 13 (str "Dr. Gabriel Torres") (str "psiquiatria")
      (str "incentivar") (ofZ 48) (ofZ 90) (str "high") None;
    mkDoctor 21 (str "Dr. Roberto Silva") (str "cirurgia-geral")
      (str "avaliar") (ofZ 85) (ofZ 45) (str "strategic") None;
    mkDoctor 22 (str "Dra. Sandra Lopes") (str "medicina-interna")
      (str "avaliar") (ofZ 82) (ofZ 42) (str "strategic") None;
    mkDoctor 26 (str "Dr. Felipe Santos") (str "outras")
      (str "conquistar") (ofZ 30) (ofZ 35) (str "new-opportunities") None;
    mkDoctor 27 (str "Dra. Gabriela Lima") (str "outras")
      (str "conquistar") (ofZ 32) (ofZ 38) (str "new-opportunities") None ].

(** [loadFromExcel].  [ExcelLoader] is [None] when the global is undefined,
    otherwise its [loadData], whose promise may be rejected ([Throw]).  The
    state it leaves replaces the previous one; the value returned is its
    [doctors]. *)
Definition loadFromExcel
  (ExcelLoader : option (Rand (result (list Doctor)))) : Rand State :=
  match ExcelLoader with
  | None => ret (mkState getFallbackData true)
  | Some loadData =>
      outcome <- loadData ;;
      match outcome with
      | Ok loadedDoctors =>
          if Nat.ltb 0 (List.length loadedDoctors)
          then ret (mkState loadedDoctors true)
          else ret (mkState getFallbackData true)
      | Throw _ => ret (mkState getFallbackData true)
      end
  end.

Definition getBySegment (st : State) (seg : jsstring) : list Doctor :=
  filter (fun doctor => JsString.eqb (segment doctor) seg) (doctors st).

Definition getBySpecialty (st : State) (spec : jsstring) : list Doctor :=
  filter (fun doctor => JsString.eqb (specialty doctor) spec) (doctors st).

Definition search (st : State) (query : jsstring) : list Doctor :=
  let searchTerm := toLowerCase query in
  filter (fun doctor => includes (toLowerCase (name doctor)) searchTerm)
         (doctors st).

Definition filterByPriority (st : State) (p : jsstring) : list Doctor :=
  filter (fun doctor => JsString.eqb (priority doctor) p) (doctors st).

Definition filterByVolumeRange (st : State) (min max : number)
  : list Doctor :=
  filter (fun doctor =>
            geb (volume doctor) min && number_leb (volume doctor) max)
         (doctors st).

Definition filterByAffinityRange (st : State) (min max : number)
  : list Doctor :=
  filter (fun doctor =>
            geb (affinity doctor) min && number_leb (affinity doctor) max)
         (doctors st).

End MedicalData.

(** ** [dashboard.js]: the other methods of [filtersModule] *)

Module FiltersModule.

Import Filters.

Definition updateSearchFilter (query : jsstring) (f : FilterState)
  : FilterState :=
  mkFilterState (trim query) (f_segments f) (f_specialty f)
    (f_volume_min f) (f_affinity_min f) (f_quickFilters f).

(** [arr.filter(s => s !== x)] *)
Definition without (x : jsstring) (arr : list jsstring) : list jsstring :=
  filter (fun s => negb (JsString.eqb s x)) arr.

(** [if (!arr.includes(x)) arr.push(x)] *)
Definition pushIfAbsent (x : jsstring) (arr : list jsstring)
  : list jsstring :=
  if arrayIncludes arr x then arr else arr ++ [x].

Definition updateSegmentFilter (seg : jsstring) (isChecked : bool)
  (f : FilterState) : FilterState :=
  mkFilterState (f_search f)
    (if isChecked then pushIfAbsent seg (f_segments f)
     else without seg (f_segments f))
    (f_specialty f) (f_volume_min f) (f_affinity_min f) (f_quickFilters f).

Definition updateSpecialtyFilter (spec : jsstring) (f : FilterState)
  : FilterState :=
  mkFilterState (f_search f) (f_segments f) spec
    (f_volume_min f) (f_affinity_min f) (f_quickFilters f).

(** [toggleQuickFilter]: [isActive] is whether the button carries the class
    [active]; the result is the new filter state and the new state of the
    button. *)
Definition toggleQuickFilter (filterType : jsstring) (isActive : bool)
  (f : FilterState) : FilterState * bool :=
  (mkFilterState (f_search f) (f_segments f) (f_specialty f)
     (f_volume_min f) (f_affinity_min f)
     (if isActive then without filterType (f_quickFilters f)
      else pushIfAbsent filterType (f_quickFilters f)),
   negb isActive).

(** The four groups built by [updateUI]. *)
Record Groups : Type := mkGroups {
  g_blindar : list Doctor;
  g_incentivar : list Doctor;
  g_avaliar : list Doctor;
  g_conquistar : list Doctor
}.

Definition segmentsOf (filteredDoctors : list Doctor) : Groups :=
  let group key :=
    filter (fun d => JsString.eqb (segment d) (str key)) filteredDoctors in
  mkGroups (group "blindar"%string) (group "incentivar"%string)
           (group "avaliar"%string) (group "conquistar"%string).

(** The count shown in the opportunities tile by [updateKPIs]. *)
Definition highPriority (filteredDoctors : list Doctor) : nat :=
  List.length
    (filter (fun d => JsString.eqb (priority d) (str "high")
                      || JsString.eqb (priority d) (str "new-opportunities"))
            filteredDoctors).

(** The number computed by [updateFilterCount]. *)
Definition updateFilterCount (f : FilterState) : nat :=
  let activeCount := 0 in
  let activeCount :=
    if nonEmpty (f_search f) then S activeCount else activeCount in
  let activeCount := activeCount + List.length (f_segments f) in
  let activeCount :=
    if nonEmpty (f_specialty f) then S activeCount else activeCount in
  let activeCount :=
    if gtb (f_volume_min f) (ofZ 0) then S activeCount else activeCount in
  let activeCount :=
    if gtb (f_affinity_min f) (ofZ 0) then S activeCount else activeCount in
  activeCount + List.length (f_quickFilters f).

(** The text written by [updateResultsSummary] (when its two elements are in
    the page); the e-acute of the last word is 233. *)
Definition updateResultsSummary (allDoctors filteredDoctors : list Doctor)
  : jsstring :=
  let total := List.length allDoctors in
  let filtered := List.length filteredDoctors in
  if Nat.eqb filtered total
  then str "Mostrando todos os m" ++ [233%N] ++ str "dicos"
  else str "Mostrando m" ++ [233%N] ++ str "dicos filtrados".

(** [clearAllFilters]: the state is reset, then each slider that is in the
    page is set to 50 and its handler called with 50. *)
Definition clearAllFilters (hasVolumeRange hasAffinityRange : bool)
  : FilterState :=
  let f := mkFilterState [] [] [] (ofZ 0) (ofZ 0) [] in
  let f := if hasVolumeRange
           then mkFilterState (f_search f) (f_segments f) (f_specialty f)
                  (ofZ 50) (f_affinity_min f) (f_quickFilters f)
           else f in
  if hasAffinityRange
  then mkFilterState (f_search f) (f_segments f) (f_specialty f)
         (f_volume_min f) (ofZ 50) (f_quickFilters f)
  else f.

(** The own entries of the [specialtyMap] of [getSpecialtyDisplayName]. *)
Definition displayNames : list (jsstring * jsstring) :=
  List.map (fun kv => (str (fst kv), str (snd kv)))
  [ ("cardiologia", "Cardiologia"); ("neurologia", "Neurologia");
    ("ortopedia", "Ortopedia"); ("ginecologia", "Ginecologia");
    ("urologia", "Urologia"); ("dermatologia", "Dermatologia");
    ("gastroenterologia", "Gastroenterologia");
    ("endocrinologia", "Endocrinologia"); ("pneumologia", "Pneumologia");
    ("reumatologia", "Reumatologia"); ("oncologia", "Oncologia");
    ("pediatria", "Pediatria"); ("psiquiatria", "Psiquiatria");
    ("oftalmologia", "Oftalmologia"); ("nefrologia", "Nefrologia");
    ("infectologia", "Infectologia"); ("hematologia", "Hematologia");
    ("geriatria", "Geriatria"); ("anestesiologia", "Anestesiologia");
    ("radiologia", "Radiologia"); ("patologia", "Patologia");
    ("cirurgia-geral", "Cirurgia Geral");
    ("medicina-interna", "Medicina Interna");
    ("outras", "Outras Especialidades") ]%string.

Definition displayLookup (spec : jsstring) : option jsstring :=
  option_map snd (find (fun kv => JsString.eqb (fst kv) spec) displayNames).

(** What [getSpecialtyDisplayName] returns: a string, or the member of
    [Object.prototype] that the object literal inherits under the key (a
    function or an object, not a string). *)
Inductive displayed : Type :=
| Text (s : jsstring)
| InheritedMember (key : jsstring).

(** The members of [Object.prototype] in a browser. *)
Definition objectPrototypeMembers : list jsstring :=
  [ str "constructor"; str "hasOwnProperty"; str "isPrototypeOf";
    str "propertyIsEnumerable"; str "toLocaleString"; str "toString";
    str "valueOf"; str "__proto__"; str "__defineGetter__";
    str "__defineSetter__"; str "__lookupGetter__"; str "__lookupSetter__" ].

Definition inheritsStandard (key : jsstring) : bool :=
  arrayIncludes objectPrototypeMembers key.

(** [specialtyMap[specialty] || specialty].  An own entry hides an inherited
    member; [inherits key] tells whether the object literal inherits a
    (truthy) member under [key] in the page that runs the code. *)
Definition getSpecialtyDisplayName (inherits : jsstring -> bool)
  (spec : jsstring) : displayed :=
  match displayLookup spec with
  | Some (c :: label) => Text (c :: label)
  | Some [] => Text spec
  | None => if inherits spec then InheritedMember spec else Text spec
  end.

End FiltersModule.

(** ** Further notions for the properties *)

(** The keys of the specialty taxonomy. *)
Definition taxonomy : list jsstring :=
  List.map fst FiltersModule.displayNames.

(** A header matches one of the patterns of a field. *)
Definition headerMatches (keys : list jsstring) (header : jsstring) : bool :=
  DataProcessor.anyIncludes (Utils.normalizeString header) keys.

(** A cell that is used as it is: a non-empty string whose parse is neither
    [NaN] nor zero. *)
Definition usableCell (v : value) : bool :=
  truthy v && JsNumber.truthy (parseFloat v).

(** The smallest positive double, 2^-1074. *)
Definition minPositiveDouble : Q := Qmake 1 (Pos.pow 2 1074).

(** A cell for which the code makes no draw: a non-empty string whose parse
    is an infinity, or a number whose magnitude is at least the smallest
    positive double, so that its conversion to a double is not zero. *)
Definition drawFreeCell (v : value) : bool :=
  truthy v &&
  match parseFloat v with
  | NaN => false
  | Fin q => Qle_bool minPositiveDouble (Qabs q)
  | PosInf | NegInf => true
  end.

(** A cell for which a random value is substituted, or whose parse lies in
    [lo, hi]. *)
Definition cellWithin (lo hi : Q) (v : value) : Prop :=
  usableCell v = true ->
  exists q, parseFloat v = Fin q /\ (lo <= q <= hi)%Q.

(** The volume and affinity cells of a row. *)
Definition volumeCell (row headers : list jsstring) : value :=
  DataProcessor.cell row
    (DataProcessor.cm_volume (DataProcessor.identifyColumns headers)).

Definition affinityCell (row headers : list jsstring) : value :=
  DataProcessor.cell row
    (DataProcessor.cm_affinity (DataProcessor.identifyColumns headers)).

(** A number that is a whole number. *)
Definition isInteger (x : number) : Prop := exists z : Z, x = ofZ z.

(** A sheet in which several headers match the same field. *)
Definition twoNameSheetHeaders : list jsstring :=
  [str "Nome"; str "Area"; str "Nome do medico"; str "Volume de consultas"].

(** The four fields with their patterns. *)
Definition fieldsOfColumnMap
  : list (list jsstring * (DataProcessor.ColumnMap -> option nat)) :=
  [ (DataProcessor.nameKeys, DataProcessor.cm_name);
    (DataProcessor.specialtyKeys, DataProcessor.cm_specialty);
    (DataProcessor.volumeKeys, DataProcessor.cm_volume);
    (DataProcessor.affinityKeys, DataProcessor.cm_affinity) ].

(** The segment and priority keys. *)
Definition segmentKeys : list jsstring :=
  [str "blindar"; str "incentivar"; str "avaliar"; str "conquistar"].

Definition priorityKeys : list jsstring :=
  [str "strategic"; str "high"; str "new-opportunities"].

(** A stored value: a whole number, or an infinity. *)
Definition wholeOrInfinite (x : number) : Prop :=
  isInteger x \/ x = PosInf \/ x = NegInf.

(** The specialty cell of a row, as [processRow] reads it. *)
Definition specialtyText (row headers : list jsstring) : jsstring :=
  match DataProcessor.cell row
          (DataProcessor.cm_specialty (DataProcessor.identifyColumns headers))
  with
  | VString s => s
  | _ => []
  end.

(** A sheet whose numeric cells are infinite. *)
Definition infiniteSheet : list (list jsstring) :=
  [ [str "Id"; str "Nome"; str "Volume"; str "Afinidade"];
    [str "1"; str "Dr. A"; str "Infinity"; str "-Infinity"] ].

(** [ExcelLoader.loadData()], as [medicalData.loadFromExcel] calls it: no
    argument, and a promise that is always fulfilled. *)
Definition publicLoadData {ArrayBuffer Worksheet : Type}
  (fetch : jsstring -> result (MainLoader.Response ArrayBuffer))
  (XLSX : option (MainLoader.XLSXLibrary ArrayBuffer Worksheet))
  (CONFIG : MainLoader.Config) : Rand (result (list Doctor)) :=
  fun g =>
    let '(processedData, g') :=
      MainLoader.loadData fetch XLSX CONFIG None g in
    (Ok processedData, g').

(** A library that cannot read the file. *)
Definition brokenXLSX : MainLoader.XLSXLibrary unit (list (list jsstring)) :=
  MainLoader.mkXLSX
    (fun _ => Throw (str "Unsupported file"))
    (fun worksheet => Ok worksheet).

(** A Doctor that [updateUI] places in one of its four groups. *)
Definition validSegment (d : Doctor) : bool :=
  JsString.eqb (segment d) (str "blindar")
  || JsString.eqb (segment d) (str "incentivar")
  || JsString.eqb (segment d) (str "avaliar")
  || JsString.eqb (segment d) (str "conquistar").

(** The sizes of the four groups, added. *)
Definition groupsTotal (G : FiltersModule.Groups) : nat :=
  List.length (FiltersModule.g_blindar G)
  + List.length (FiltersModule.g_incentivar G)
  + List.length (FiltersModule.g_avaliar G)
  + List.length (FiltersModule.g_conquistar G).

(** * Properties *)

Unset Implicit Arguments.

Import Utils DataProcessor MainLoader Filters.

(** ** Numbers and comparisons *)

Section NumberFacts.

Lemma compare_or_zero (v c : number) :
  v <> NaN -> compare (JsNumber.or v (ofZ 0)) c = compare v c.
Proof.
  intros Hv. unfold JsNumber.or.
  destruct v as [| | |q]; simpl; try congruence.
  destruct (Qeq_bool q 0) eqn:E; simpl; [|reflexivity].
  apply Qeq_bool_iff in E.
  destruct c; simpl; try reflexivity.
  f_equal. unfold inject_Z. now rewrite E.
Qed.

Lemma ltb_negb_geb (v c : number) :
  v <> NaN -> c <> NaN -> ltb v c = negb (geb v c).
Proof.
  intros Hv Hc. unfold ltb, geb.
  destruct v, c; simpl; try congruence.
  now destruct (Qcompare q q0).
Qed.

Lemma gtb_geb (v c : number) : gtb v c = true -> geb v c = true.
Proof.
  unfold gtb, geb. destruct (compare v c) as [[]|]; congruence.
Qed.

Lemma geb_Fin (a b : Q) : geb (Fin a) (Fin b) = true <-> (b <= a)%Q.
Proof.
  unfold geb; simpl. rewrite Qle_alt, <- (Qcompare_antisym a b).
  destruct (Qcompare a b); simpl; split; congruence.
Qed.

Lemma ltb_Fin (a b : Q) : ltb (Fin a) (Fin b) = true <-> (a < b)%Q.
Proof.
  unfold ltb; simpl. rewrite Qlt_alt.
  destruct (Qcompare a b); split; congruence.
Qed.

Lemma gtb_Fin (a b : Q) : gtb (Fin a) (Fin b) = true <-> (b < a)%Q.
Proof.
  unfold gtb; simpl. rewrite Qlt_alt, <- (Qcompare_antisym a b).
  destruct (Qcompare a b); simpl; split; congruence.
Qed.

Lemma geb_trans (x y z : number) :
  geb x y = true -> geb y z = true -> geb x z = true.
Proof.
  destruct x as [| | |a], y as [| | |b], z as [| | |c];
    try (unfold geb; simpl; congruence).
  rewrite !geb_Fin. intros; lra.
Qed.

End NumberFacts.

(** [parseSegment] and [parsePriority] read their numeric arguments through
    the comparisons of the arguments themselves. *)
Lemma parseSegment_number (v a : number) :
  v <> NaN -> a <> NaN ->
  parseSegment (VNumber v) (VNumber a) =
  if geb v (ofZ 60) && geb a (ofZ 60) then str "blindar"
  else if ltb v (ofZ 60) && geb a (ofZ 60) then str "incentivar"
  else if geb v (ofZ 60) && ltb a (ofZ 60) then str "avaliar"
  else str "conquistar".
Proof.
  intros Hv Ha. unfold parseSegment, geb, ltb; simpl parseFloat.
  now rewrite !compare_or_zero.
Qed.

Lemma parsePriority_number (v a : number) (seg : jsstring) :
  v <> NaN -> a <> NaN ->
  parsePriority (VNumber v) (VNumber a) seg =
  if JsString.eqb seg (str "blindar") then str "strategic"
  else if gtb v (ofZ 80) || gtb a (ofZ 80) then str "high"
  else if ltb v (ofZ 40) && ltb a (ofZ 40) then str "new-opportunities"
  else str "strategic".
Proof.
  intros Hv Ha. unfold parsePriority, gtb, ltb; simpl parseFloat.
  now rewrite !compare_or_zero.
Qed.

Lemma jsstring_eqb_eq (a b : jsstring) : JsString.eqb a b = true <-> a = b.
Proof.
  revert b; induction a as [|x a IH]; intros [|y b]; simpl;
    try (split; congruence).
  rewrite andb_true_iff, N.eqb_eq, IH. split.
  - intros [-> ->]; reflexivity.
  - intros [= -> ->]; auto.
Qed.

(** Distinct literals are told apart by evaluation. *)
Ltac str_discr :=
  match goal with
  | H : _ = _ :> jsstring |- _ => solve [vm_compute in H; discriminate H]
  | H : _ = _ :> list N |- _ => solve [vm_compute in H; discriminate H]
  end.

(** C4. For numeric inputs, [parseSegment] returns blindar iff volume >= 60
    and affinity >= 60, incentivar iff volume < 60 and affinity >= 60,
    avaliar iff volume >= 60 and affinity < 60, and conquistar in every other
    case; the bound 60 is inclusive: [parseSegment(60, 60)] is blindar. *)
Theorem parseSegment_thresholds (v a : number) :
  v <> NaN -> a <> NaN ->
  let s := parseSegment (VNumber v) (VNumber a) in
  (s = str "blindar" <->
     geb v (ofZ 60) = true /\ geb a (ofZ 60) = true) /\
  (s = str "incentivar" <->
     ltb v (ofZ 60) = true /\ geb a (ofZ 60) = true) /\
  (s = str "avaliar" <->
     geb v (ofZ 60) = true /\ ltb a (ofZ 60) = true) /\
  (s = str "conquistar" <->
     ~ (geb v (ofZ 60) = true /\ geb a (ofZ 60) = true) /\
     ~ (ltb v (ofZ 60) = true /\ geb a (ofZ 60) = true) /\
     ~ (geb v (ofZ 60) = true /\ ltb a (ofZ 60) = true)) /\
  (s = str "conquistar" <->
     ltb v (ofZ 60) = true /\ ltb a (ofZ 60) = true) /\
  parseSegment (VNumber (ofZ 60)) (VNumber (ofZ 60)) = str "blindar".
Proof.
  intros Hv Ha s. subst s.
  rewrite (parseSegment_number v a Hv Ha).
  rewrite !(@ltb_negb_geb v (ofZ 60)), !(@ltb_negb_geb a (ofZ 60))
    by (assumption || discriminate).
  destruct (geb v (ofZ 60)), (geb a (ofZ 60)); simpl;
    repeat split; intros; try reflexivity; try str_discr;
    try discriminate; try tauto;
    repeat match goal with
           | H : _ /\ _ |- _ => destruct H
           end; try discriminate; try tauto.
  all: intros [? ?]; discriminate.
Qed.

Lemma parseSegment_thresholds_witness :
  let s := parseSegment (VNumber (ofZ 85)) (VNumber (ofZ 40)) in
  (s = str "blindar" <->
     geb (ofZ 85) (ofZ 60) = true /\ geb (ofZ 40) (ofZ 60) = true) /\
  (s = str "incentivar" <->
     ltb (ofZ 85) (ofZ 60) = true /\ geb (ofZ 40) (ofZ 60) = true) /\
  (s = str "avaliar" <->
     geb (ofZ 85) (ofZ 60) = true /\ ltb (ofZ 40) (ofZ 60) = true) /\
  (s = str "conquistar" <->
     ~ (geb (ofZ 85) (ofZ 60) = true /\ geb (ofZ 40) (ofZ 60) = true) /\
     ~ (ltb (ofZ 85) (ofZ 60) = true /\ geb (ofZ 40) (ofZ 60) = true) /\
     ~ (geb (ofZ 85) (ofZ 60) = true /\ ltb (ofZ 40) (ofZ 60) = true)) /\
  (s = str "conquistar" <->
     ltb (ofZ 85) (ofZ 60) = true /\ ltb (ofZ 40) (ofZ 60) = true) /\
  parseSegment (VNumber (ofZ 60)) (VNumber (ofZ 60)) = str "blindar".
Proof.
  apply (@parseSegment_thresholds (ofZ 85) (ofZ 40)); discriminate.
Defined.

(** C5. For numeric inputs, [parsePriority] applies its rules in order and
    the first match wins: the segment blindar gives strategic, also when
    volume > 80 or affinity > 80; otherwise volume > 80 or affinity > 80 gives
    high, then volume < 40 and affinity < 40 gives new-opportunities, and
    every remaining case gives strategic. *)
Theorem parsePriority_first_match (v a : number) (seg : jsstring) :
  v <> NaN -> a <> NaN ->
  let p := parsePriority (VNumber v) (VNumber a) seg in
  (seg = str "blindar" -> p = str "strategic") /\
  (seg <> str "blindar" ->
     (gtb v (ofZ 80) = true \/ gtb a (ofZ 80) = true -> p = str "high") /\
     (gtb v (ofZ 80) = false -> gtb a (ofZ 80) = false ->
        (ltb v (ofZ 40) = true /\ ltb a (ofZ 40) = true ->
           p = str "new-opportunities") /\
        (~ (ltb v (ofZ 40) = true /\ ltb a (ofZ 40) = true) ->
           p = str "strategic"))).
Proof.
  intros Hv Ha p. subst p.
  rewrite (parsePriority_number v a seg Hv Ha).
  split.
  - intros ->. reflexivity.
  - intros Hseg.
    destruct (JsString.eqb seg (str "blindar")) eqn:E.
    { apply jsstring_eqb_eq in E. contradiction. }
    split.
    + intros [H|H]; rewrite H; [reflexivity | now rewrite orb_true_r].
    + intros -> ->. simpl. split.
      * intros [-> ->]. reflexivity.
      * intros H. destruct (ltb v (ofZ 40)), (ltb a (ofZ 40)); simpl;
          try reflexivity. exfalso; apply H; auto.
Qed.

Lemma parsePriority_first_match_witness :
  let p :=
    parsePriority (VNumber (ofZ 85)) (VNumber (ofZ 90)) (str "blindar") in
  (str "blindar" = str "blindar" -> p = str "strategic") /\
  (str "blindar" <> str "blindar" ->
     (gtb (ofZ 85) (ofZ 80) = true \/ gtb (ofZ 90) (ofZ 80) = true ->
        p = str "high") /\
     (gtb (ofZ 85) (ofZ 80) = false -> gtb (ofZ 90) (ofZ 80) = false ->
        (ltb (ofZ 85) (ofZ 40) = true /\ ltb (ofZ 90) (ofZ 40) = true ->
           p = str "new-opportunities") /\
        (~ (ltb (ofZ 85) (ofZ 40) = true /\ ltb (ofZ 90) (ofZ 40) = true) ->
           p = str "strategic"))).
Proof.
  apply (@parsePriority_first_match (ofZ 85) (ofZ 90) (str "blindar"));
    discriminate.
Defined.

(** ** The record builder *)

Lemma numberOrRandom_not_NaN (n : number) (g : RandomSource) :
  fst (numberOrRandom n g) <> NaN.
Proof.
  unfold numberOrRandom. destruct (JsNumber.truthy n) eqn:E; simpl.
  - destruct n; simpl in *; congruence.
  - discriminate.
Qed.

Lemma processedNumbers_not_NaN (row headers : list jsstring)
  (g : RandomSource) :
  fst (fst (processedNumbers row headers g)) <> NaN /\
  snd (fst (processedNumbers row headers g)) <> NaN.
Proof.
  unfold processedNumbers, bind, ret.
  destruct (orRandom _ g) as [vol g1].
  destruct (orRandom _ g1) as [aff g2].
  pose proof (numberOrRandom_not_NaN (parseFloat vol) g2) as H1.
  destruct (numberOrRandom (parseFloat vol) g2) as [pv g3].
  pose proof (numberOrRandom_not_NaN (parseFloat aff) g3) as H2.
  destruct (numberOrRandom (parseFloat aff) g3) as [pa g4].
  simpl in *. auto.
Qed.

(** What a row that yields a Doctor looks like. *)
Lemma processRow_Some (row headers : list jsstring) (n : nat)
  (g g' : RandomSource) (d : Doctor) :
  processRow row headers n g = (Some d, g') ->
  exists k nm,
    cm_name (identifyColumns headers) = Some (S k) /\
    nth_error row (S k) = Some nm /\
    normalizeString nm <> [] /\
    let pv := fst (fst (processedNumbers row headers g)) in
    let pa := snd (fst (processedNumbers row headers g)) in
    g' = snd (processedNumbers row headers g) /\
    id d = n /\ originalRow d = Some n /\
    name d = trim nm /\
    segment d = parseSegment (VNumber pv) (VNumber pa) /\
    priority d = parsePriority (VNumber pv) (VNumber pa) (segment d) /\
    volume d = Math_round pv /\ affinity d = Math_round pa.
Proof.
  unfold processRow, processedNumbers. intros H.
  destruct (cm_name (identifyColumns headers)) as [[|k]|] eqn:Ek;
    cbn [notIndex cell] in H; try (unfold ret in H; discriminate H).
  destruct (nth_error row (S k)) as [nm|] eqn:Enm;
    try (unfold ret in H; discriminate H).
  destruct (negb (truthy (VString nm))
            || Nat.eqb (List.length (normalizeString nm)) 0) eqn:Eok;
    try (unfold ret in H; discriminate H).
  apply orb_false_iff in Eok. destruct Eok as [_ Enorm].
  revert H. unfold bind, ret.
  destruct (orRandom _ g) as [vol g1].
  destruct (orRandom _ g1) as [aff g2].
  destruct (numberOrRandom (parseFloat vol) g2) as [pv g3].
  destruct (numberOrRandom (parseFloat aff) g3) as [pa g4].
  intros [= <- <-]. exists k, nm. cbn [fst snd].
  repeat split; auto.
  intros E. rewrite E in Enorm. discriminate.
Qed.

(** A row without a usable name yields nothing and draws nothing. *)
Lemma processRow_unresolved (row headers : list jsstring) (n : nat)
  (g : RandomSource) :
  notIndex (cm_name (identifyColumns headers)) = true ->
  processRow row headers n g = (None, g).
Proof.
  unfold processRow. intros ->. reflexivity.
Qed.

Lemma processRow_blank (row headers : list jsstring) (n : nat)
  (g : RandomSource) :
  blankNameCell (cell row (cm_name (identifyColumns headers))) ->
  processRow row headers n g = (None, g).
Proof.
  unfold processRow. intros Hb.
  destruct (notIndex _); [reflexivity|].
  destruct (cell row _) as [|nm|x]; simpl in Hb; try reflexivity.
  unfold normalizeString.
  destruct nm; simpl; [reflexivity|].
  unfold toLowerCase. rewrite Hb. reflexivity.
Qed.

(** Every Doctor collected by the loop was already collected or comes from
    one of the rows. *)
Lemma forEachRow_In (headers : list jsstring) (rows : list (list jsstring)) :
  forall (i : nat) (acc : list Doctor) (g : RandomSource) (d : Doctor),
    In d (fst (forEachRow rows headers i acc g)) ->
    In d acc \/
    exists row n g0,
      In row rows /\ fst (processRow row headers n g0) = Some d.
Proof.
  induction rows as [|row rest IH]; intros i acc g d; simpl.
  - auto.
  - unfold bind.
    destruct (processRow row headers (i + 2) g) as [o g1] eqn:E.
    intros H. apply IH in H. destruct H as [H|(r & n & g0 & Hr & Hp)].
    + destruct o as [d0|]; [|auto].
      apply in_app_or in H. destruct H as [H|[<-|[]]]; [auto|].
      right. exists row, (i + 2), g. rewrite E. auto.
    + right. exists r, n, g0. auto.
Qed.

Lemma processRawData_In (rawData : list (list jsstring))
  (g g' : RandomSource) (doctors : list Doctor) (d : Doctor) :
  processRawData rawData g = (Ok doctors, g') ->
  In d doctors ->
  exists headers dataRows row n g0,
    rawData = headers :: dataRows /\ In row dataRows /\
    fst (processRow row headers n g0) = Some d.
Proof.
  unfold processRawData.
  destruct rawData as [|headers [|r rows]]; try (unfold ret; congruence).
  unfold bind, ret.
  destruct (forEachRow (r :: rows) headers 0 [] g) as [ds g1] eqn:E.
  intros [= <- <-] Hin.
  pose proof (forEachRow_In headers (r :: rows) 0 [] g d) as H.
  rewrite E in H. destruct (H Hin) as [[]|(row & n & g0 & Hr & Hp)].
  exists headers, (r :: rows), row, n, g0. auto.
Qed.

(** ** Rounding and the threshold 60 *)

Lemma Math_round_not_NaN (x : number) : x <> NaN -> Math_round x <> NaN.
Proof. destruct x; simpl; intros; (congruence || discriminate). Qed.

Lemma geb_round_60 (x : number) :
  roundsAcross60 x = false ->
  geb (Math_round x) (ofZ 60) = geb x (ofZ 60).
Proof.
  destruct x as [| | |q]; try reflexivity.
  unfold roundsAcross60, Math_round, ofZ. intros Hx.
  apply eq_iff_eq_true. rewrite !geb_Fin.
  assert (Hgap : ~ ((119 # 2) <= q /\ ~ (60 <= q))%Q).
  { intros [H1 H2]. apply Qle_bool_iff in H1. rewrite H1 in Hx.
    destruct (Qle_bool 60 q) eqn:E; [|discriminate].
    apply Qle_bool_iff in E. contradiction. }
  split; intros H.
  - pose proof (Qfloor_le (q + (1 # 2))) as Hf.
    destruct (Qlt_le_dec q 60) as [Hlt|Hle]; [|exact Hle].
    exfalso. apply Hgap. split; [|lra].
    change (inject_Z 60) with (60 # 1)%Q in H. lra.
  - rewrite <- Zle_Qle. rewrite <- (Qfloor_Z 60).
    apply Qfloor_resp_le. change (inject_Z 60) with (60 # 1)%Q in *. lra.
Qed.

Lemma parseSegment_round (pv pa : number) :
  pv <> NaN -> pa <> NaN ->
  roundsAcross60 pv = false -> roundsAcross60 pa = false ->
  parseSegment (VNumber (Math_round pv)) (VNumber (Math_round pa)) =
  parseSegment (VNumber pv) (VNumber pa).
Proof.
  intros Hv Ha Cv Ca.
  rewrite !parseSegment_number by auto using Math_round_not_NaN.
  rewrite !ltb_negb_geb
    by (auto using Math_round_not_NaN || discriminate).
  now rewrite !geb_round_60.
Qed.

(** C1, as stated, fails: the volume cell 59.5 is classified below the
    threshold and stored as 60, so the stored fields re-derive blindar while
    the stored segment is incentivar. *)
Lemma segment_rederived_counterexample :
  exists d : Doctor,
    fst (processRawData fractionSheet halves) = Ok [d] /\
    volume d = ofZ 60 /\ affinity d = ofZ 90 /\
    segment d = str "incentivar" /\
    parseSegment (VNumber (volume d)) (VNumber (affinity d)) = str "blindar" /\
    segment d <> parseSegment (VNumber (volume d)) (VNumber (affinity d)).
Proof.
  eexists. split; [vm_compute; reflexivity|].
  repeat split; try (vm_compute; reflexivity).
  vm_compute. discriminate.
Qed.

(** C1, amended. For every Doctor [d] produced by the ingestion pipeline,
    [d.segment] is the segment function applied to the values before
    rounding, of which [d.volume] and [d.affinity] are the roundings; it is
    the segment function applied to the stored [d.volume] and [d.affinity]
    whenever neither unrounded value lies in [59.5, 60). *)
Theorem segment_rederived_amended (rawData : list (list jsstring))
  (g g' : RandomSource) (doctors : list Doctor) (d : Doctor) :
  processRawData rawData g = (Ok doctors, g') ->
  In d doctors ->
  exists headers dataRows row g0,
    rawData = headers :: dataRows /\ In row dataRows /\
    let pv := fst (fst (processedNumbers row headers g0)) in
    let pa := snd (fst (processedNumbers row headers g0)) in
    volume d = Math_round pv /\ affinity d = Math_round pa /\
    segment d = parseSegment (VNumber pv) (VNumber pa) /\
    (roundsAcross60 pv = false -> roundsAcross60 pa = false ->
     segment d = parseSegment (VNumber (volume d)) (VNumber (affinity d))).
Proof.
  intros Hrun Hin.
  destruct (processRawData_In _ _ _ _ _ Hrun Hin)
    as (headers & dataRows & row & n & g0 & -> & Hrow & Hp).
  exists headers, dataRows, row, g0.
  destruct (processRow row headers n g0) as [o g1] eqn:E.
  simpl in Hp. subst o.
  destruct (processRow_Some _ _ _ _ _ _ E)
    as (k & nm & _ & _ & _ & _ & _ & _ & _ & Hseg & _ & Hvol & Haff).
  destruct (processedNumbers_not_NaN row headers g0) as [Hv Ha].
  repeat split; auto.
  intros Cv Ca. rewrite Hvol, Haff, Hseg.
  symmetry. now apply parseSegment_round.
Qed.

Lemma segment_rederived_amended_witness :
  exists headers dataRows row g0,
    scenarioA_shifted = headers :: dataRows /\ In row dataRows /\
    let pv := fst (fst (processedNumbers row headers g0)) in
    let pa := snd (fst (processedNumbers row headers g0)) in
    ofZ 85 = Math_round pv /\ ofZ 90 = Math_round pa /\
    str "blindar" = parseSegment (VNumber pv) (VNumber pa) /\
    (roundsAcross60 pv = false -> roundsAcross60 pa = false ->
     str "blindar" = parseSegment (VNumber (ofZ 85)) (VNumber (ofZ 90))).
Proof.
  apply (@segment_rederived_amended scenarioA_shifted halves halves
           [mkDoctor 2 (str "Dr. Teste") (str "cardiologia") (str "blindar")
              (ofZ 85) (ofZ 90) (str "strategic") (Some 2)]
           (mkDoctor 2 (str "Dr. Teste") (str "cardiologia") (str "blindar")
              (ofZ 85) (ofZ 90) (str "strategic") (Some 2))).
  - vm_compute. reflexivity.
  - simpl. left. reflexivity.
Defined.

(** ** Scenario A *)

(** C2. On the sheet of scenario A the name header is the first one, its
    index 0 is read as an unresolved column, and no Doctor is produced. *)
Theorem scenarioA_produces_no_doctor (g : RandomSource) :
  identifyColumns (hd [] scenarioA) =
    mkColumnMap (Some 0) (Some 1) (Some 2) (Some 3) /\
  processRawData scenarioA g = (Ok [], g).
Proof. split; reflexivity. Qed.

(** With one column before the name, the same row gives the Doctor of the
    scenario. *)
Lemma scenarioA_shifted_doctor (g : RandomSource) :
  processRawData scenarioA_shifted g =
  (Ok [mkDoctor 2 (str "Dr. Teste") (str "cardiologia") (str "blindar")
         (ofZ 85) (ofZ 90) (str "strategic") (Some 2)], g).
Proof. reflexivity. Qed.

(** ** The random substitute *)

(** C3. A volume cell holding ["0"] parses to the number zero, and yet the
    stored volume is the rounding of a random draw. *)
Theorem zero_cell_replaced_by_random (g : RandomSource) :
  parseFloat (VString (str "0")) = Fin 0 /\
  exists d : Doctor,
    processRawData zeroSheet g =
      (Ok [d], mkRandom (draws g) (S (consumed g))) /\
    volume d = Math_round (Fin (draws g (consumed g) * 100)) /\
    affinity d = ofZ 50.
Proof.
  split; [reflexivity|].
  eexists. split; [reflexivity|]. split; reflexivity.
Qed.

Lemma zero_cell_stored_as_50 :
  option_map volume
    (match fst (processRawData zeroSheet halves) with
     | Ok [d] => Some d
     | _ => None
     end) = Some (ofZ 50).
Proof. reflexivity. Qed.

(** A draw in [0,1) gives a substitute in [0,100). *)
Lemma random100_range (g : RandomSource) :
  (0 <= draws g (consumed g) < 1)%Q ->
  exists q, fst (random100 g) = Fin q /\ (0 <= q < 100)%Q.
Proof.
  intros H. eexists. split; [reflexivity|]. lra.
Qed.

(** When a draw is made for a cell: exactly when the cell is falsy, or its
    parse is [NaN] or zero. *)
Lemma cell_draws_iff (s : jsstring) (g : RandomSource) :
  let run := (v <- orRandom (VString s) ;; numberOrRandom (parseFloat v)) g in
  (consumed (snd run) <> consumed g <->
   s = [] \/ JsNumber.truthy (ParseFloat.ofString s) = false) /\
  (s <> [] -> JsNumber.truthy (ParseFloat.ofString s) = true ->
   run = (ParseFloat.ofString s, g)).
Proof.
  cbv [bind orRandom numberOrRandom ret random100].
  destruct s as [|c s];
    cbn [truthy List.length Nat.eqb negb parseFloat JsNumber.truthy].
  - split; [|congruence].
    split; [auto|]. intros _.
    match goal with
    | |- context [if ?b then _ else _] => destruct b
    end; simpl; lia.
  - destruct (JsNumber.truthy (ParseFloat.ofString (c :: s))) eqn:E;
      cbn [fst snd consumed]; split.
    + split; [congruence|]. intros [H|H]; discriminate.
    + reflexivity.
    + split; auto; lia.
    + discriminate.
Qed.

(** ** Trimming *)

Lemma trimStart_idem (s : jsstring) : trimStart (trimStart s) = trimStart s.
Proof.
  induction s as [|c t IH]; simpl; [reflexivity|].
  destruct (isWhiteSpace c) eqn:E; [exact IH|].
  simpl. now rewrite E.
Qed.

Lemma trimStart_snoc (l : jsstring) (c : N) :
  isWhiteSpace c = false -> trimStart (l ++ [c]) = trimStart l ++ [c].
Proof.
  intros Hc. induction l as [|x l IH]; simpl.
  - now rewrite Hc.
  - destruct (isWhiteSpace x); [exact IH | reflexivity].
Qed.

Lemma trimEnd_cons (c : N) (t : jsstring) :
  isWhiteSpace c = false -> trimEnd (c :: t) = c :: trimEnd t.
Proof.
  intros Hc. unfold trimEnd. simpl rev.
  rewrite trimStart_snoc by exact Hc.
  now rewrite rev_app_distr.
Qed.

Lemma trimEnd_idem (s : jsstring) : trimEnd (trimEnd s) = trimEnd s.
Proof.
  unfold trimEnd. now rewrite rev_involutive, trimStart_idem.
Qed.

Lemma trimStart_head (s : jsstring) :
  trimStart s = [] \/
  exists c t, trimStart s = c :: t /\ isWhiteSpace c = false.
Proof.
  induction s as [|c t IH]; simpl; [auto|].
  destruct (isWhiteSpace c) eqn:E; [exact IH|].
  right. exists c, t. auto.
Qed.

Lemma trim_idem (s : jsstring) : trim (trim s) = trim s.
Proof.
  unfold trim.
  destruct (trimStart_head s) as [->|(c & t & -> & Hc)]; [reflexivity|].
  rewrite trimEnd_cons by exact Hc.
  simpl trimStart. rewrite Hc.
  rewrite trimEnd_cons by exact Hc.
  now rewrite trimEnd_idem.
Qed.

Lemma normalizeString_nonempty (s : jsstring) :
  normalizeString s <> [] -> trim s <> [].
Proof.
  unfold normalizeString, toLowerCase.
  destruct s; [congruence|]. intros H E. rewrite E in H. now apply H.
Qed.

(** ** The loop over the data rows *)

Lemma forEachRow_app (headers : list jsstring)
  (before after : list (list jsstring)) :
  forall (i : nat) (acc : list Doctor) (g : RandomSource),
    forEachRow (before ++ after) headers i acc g =
    let '(acc1, g1) := forEachRow before headers i acc g in
    forEachRow after headers (i + List.length before) acc1 g1.
Proof.
  induction before as [|row rest IH]; intros i acc g; simpl.
  - unfold ret. now rewrite Nat.add_0_r.
  - unfold bind.
    destruct (processRow row headers (i + 2) g) as [o g1].
    rewrite IH. now rewrite Nat.add_succ_comm.
Qed.

Lemma forEachRow_skip (headers row : list jsstring)
  (after : list (list jsstring)) (i : nat) (acc : list Doctor)
  (g : RandomSource) :
  processRow row headers (i + 2) g = (None, g) ->
  forEachRow (row :: after) headers i acc g =
  forEachRow after headers (S i) acc g.
Proof.
  intros H. simpl. unfold bind. now rewrite H.
Qed.

Lemma processRawData_names (rawData : list (list jsstring))
  (g g' : RandomSource) (doctors : list Doctor) (d : Doctor) :
  processRawData rawData g = (Ok doctors, g') ->
  In d doctors ->
  name d <> [] /\ trim (name d) = name d.
Proof.
  intros Hrun Hin.
  destruct (processRawData_In _ _ _ _ _ Hrun Hin)
    as (headers & dataRows & row & n & g0 & -> & Hrow & Hp).
  destruct (processRow row headers n g0) as [o g1] eqn:E.
  simpl in Hp. subst o.
  destruct (processRow_Some _ _ _ _ _ _ E)
    as (k & nm & _ & _ & Hnorm & _ & _ & _ & Hname & _).
  rewrite Hname. split.
  - now apply normalizeString_nonempty.
  - apply trim_idem.
Qed.

(** C6. Every Doctor of the collection has a name that is not empty and is
    its own trimming; a data row whose name cell is missing, empty or white
    space only gives no Doctor and draws no random number, and the rows
    before and after it are processed as they are without it. *)
Theorem names_non_empty_and_blank_rows_dropped :
  (forall (rawData : list (list jsstring)) (g g' : RandomSource)
          (doctors : list Doctor) (d : Doctor),
      processRawData rawData g = (Ok doctors, g') ->
      In d doctors ->
      name d <> [] /\ trim (name d) = name d) /\
  (forall (headers row : list jsstring) (before after : list (list jsstring))
          (g : RandomSource),
      blankNameCell (cell row (cm_name (identifyColumns headers))) ->
      (forall n, processRow row headers n g = (None, g)) /\
      processRawData (headers :: before ++ row :: after) g =
        (let '(ds, g1) := forEachRow before headers 0 [] g in
         let '(ds', g2) :=
           forEachRow after headers (S (List.length before)) ds g1 in
         (Ok ds', g2))).
Proof.
  split.
  - exact processRawData_names.
  - intros headers row before after g Hblank. split.
    + intros n. now apply processRow_blank.
    + unfold processRawData.
      replace (before ++ row :: after) with ((before ++ [row]) ++ after)
        by now rewrite <- app_assoc.
      destruct (before ++ [row]) as [|r0 rest] eqn:Eb.
      { destruct before; discriminate. }
      rewrite <- Eb. clear Eb r0 rest.
      assert (Hne : exists r rs, (before ++ [row]) ++ after = r :: rs).
      { destruct before; simpl; eauto. }
      destruct Hne as (r & rs & Hne). rewrite Hne, <- Hne.
      unfold bind, ret. rewrite <- app_assoc. simpl app.
      rewrite forEachRow_app.
      destruct (forEachRow before headers 0 [] g) as [ds g1].
      rewrite forEachRow_skip by now apply processRow_blank.
      simpl. destruct (forEachRow after headers _ ds g1). reflexivity.
Qed.

Lemma names_non_empty_and_blank_rows_dropped_witness :
  (name (mkDoctor 2 (str "Dr. Teste") (str "cardiologia") (str "blindar")
           (ofZ 85) (ofZ 90) (str "strategic") (Some 2)) <> [] /\
   trim (str "Dr. Teste") = str "Dr. Teste") /\
  fst (processRawData blankNameSheet halves) =
    Ok [ mkDoctor 2 (str "Dr. A") (str "outras") (str "avaliar")
           (ofZ 70) (ofZ 50) (str "strategic") (Some 2);
         mkDoctor 4 (str "Dr. C") (str "outras") (str "incentivar")
           (ofZ 30) (ofZ 90) (str "high") (Some 4) ].
Proof.
  destruct names_non_empty_and_blank_rows_dropped as [H1 H2]. split.
  - apply (H1 scenarioA_shifted halves halves
             [mkDoctor 2 (str "Dr. Teste") (str "cardiologia") (str "blindar")
                (ofZ 85) (ofZ 90) (str "strategic") (Some 2)]).
    + vm_compute. reflexivity.
    + simpl. left. reflexivity.
  - destruct (H2 [str "Id"; str "Nome"; str "Volume"; str "Afinidade"]
                [str "2"; str "   "; str "10"; str "20"]
                [[str "1"; str "Dr. A"; str "70"; str "50"]]
                [[str "3"; str "Dr. C"; str "30"; str "90"]]
                halves) as [_ H].
    + vm_compute. reflexivity.
    + unfold blankNameSheet. simpl app in H. rewrite H.
      vm_compute. reflexivity.
Defined.

(** ** The name column at index 0 *)

Lemma identifyStep_name (m : ColumnMap) (header : jsstring) (i : nat) :
  cm_name (identifyStep m header i) =
  if isNameHeader header then Some i else cm_name m.
Proof.
  unfold identifyStep, isNameHeader.
  destruct (anyIncludes _ nameKeys), (anyIncludes _ specialtyKeys),
    (anyIncludes _ volumeKeys), (anyIncludes _ affinityKeys); reflexivity.
Qed.

Lemma identifyFrom_name_unmatched (headers : list jsstring) :
  forall (i : nat) (m : ColumnMap),
    forallb (fun h => negb (isNameHeader h)) headers = true ->
    cm_name (identifyFrom headers i m) = cm_name m.
Proof.
  induction headers as [|h rest IH]; intros i m Hall; simpl in *.
  - reflexivity.
  - apply andb_true_iff in Hall. destruct Hall as [Hh Hrest].
    rewrite IH by exact Hrest. rewrite identifyStep_name.
    now destruct (isNameHeader h).
Qed.

Lemma identifyColumns_name_first (h0 : jsstring) (rest : list jsstring) :
  isNameHeader h0 = true ->
  forallb (fun h => negb (isNameHeader h)) rest = true ->
  cm_name (identifyColumns (h0 :: rest)) = Some 0.
Proof.
  intros H0 Hrest. unfold identifyColumns. simpl.
  rewrite identifyFrom_name_unmatched by exact Hrest.
  rewrite identifyStep_name. now rewrite H0.
Qed.

Lemma forEachRow_all_skipped (headers : list jsstring)
  (rows : list (list jsstring)) :
  (forall row n g, processRow row headers n g = (None, g)) ->
  forall (i : nat) (acc : list Doctor) (g : RandomSource),
    forEachRow rows headers i acc g = (acc, g).
Proof.
  intros Hskip. induction rows as [|row rest IH]; intros i acc g; simpl.
  - reflexivity.
  - unfold bind. rewrite Hskip. apply IH.
Qed.

(** C10. When the header that matches the name patterns is the first of the
    header row, [processRow] reads its index 0 as an unresolved name column
    and returns [null] for every row; [processRawData] then returns the
    empty collection, with no error, whatever data rows the sheet has. *)
Theorem name_header_at_index_0_yields_nothing
  (h0 : jsstring) (rest : list jsstring) :
  isNameHeader h0 = true ->
  forallb (fun h => negb (isNameHeader h)) rest = true ->
  let headers := h0 :: rest in
  cm_name (identifyColumns headers) = Some 0 /\
  notIndex (cm_name (identifyColumns headers)) = true /\
  (forall row n g, processRow row headers n g = (None, g)) /\
  (forall row dataRows g,
      processRawData (headers :: row :: dataRows) g = (Ok [], g)).
Proof.
  intros H0 Hrest headers.
  assert (Hname : cm_name (identifyColumns headers) = Some 0)
    by now apply identifyColumns_name_first.
  assert (Hnot : notIndex (cm_name (identifyColumns headers)) = true)
    by now rewrite Hname.
  assert (Hskip : forall row n g, processRow row headers n g = (None, g))
    by (intros; now apply processRow_unresolved).
  repeat split; auto.
  intros row dataRows g. unfold processRawData, bind, ret.
  now rewrite forEachRow_all_skipped.
Qed.

Lemma name_header_at_index_0_yields_nothing_witness :
  let headers :=
    [str "Nome"; str "Especialidade"; str "Volume"; str "Afinidade"] in
  cm_name (identifyColumns headers) = Some 0 /\
  notIndex (cm_name (identifyColumns headers)) = true /\
  (forall row n g, processRow row headers n g = (None, g)) /\
  (forall row dataRows g,
      processRawData (headers :: row :: dataRows) g = (Ok [], g)).
Proof.
  apply (name_header_at_index_0_yields_nothing (str "Nome")
           [str "Especialidade"; str "Volume"; str "Afinidade"]);
    vm_compute; reflexivity.
Defined.

(** ** The fallback of [loadData] *)

Lemma processRawData_Throw (rawData : list (list jsstring))
  (g : RandomSource) (message : jsstring) :
  fst (processRawData rawData g) = Throw message ->
  processRawData rawData g = (Throw message, g) /\ List.length rawData < 2.
Proof.
  unfold processRawData.
  destruct rawData as [|headers [|r rows]].
  - simpl. intros [= <-]. split; [reflexivity | lia].
  - simpl. intros [= <-]. split; [reflexivity | lia].
  - unfold bind, ret.
    destruct (forEachRow (r :: rows) headers 0 [] g). discriminate.
Qed.

Lemma processRawData_insufficient (rawData : list (list jsstring))
  (g : RandomSource) :
  List.length rawData < 2 ->
  processRawData rawData g =
    (Throw (str "Dados insuficientes na planilha"), g).
Proof.
  destruct rawData as [|headers [|r rows]]; simpl; intros H;
    try reflexivity; lia.
Qed.

Section LoadData.

Variables ArrayBuffer Worksheet : Type.
Variable fetch : jsstring -> result (Response ArrayBuffer).
Variable XLSX : option (XLSXLibrary ArrayBuffer Worksheet).
Variable CONFIG : Config.

(** C7. Whatever fails in the pipeline, [loadData] returns a collection and
    no error: when a stage before the record building throws, and when
    [processRawData] throws, which it does on a grid of fewer than 2 rows,
    the result is the built-in sample, whose 3 entries are returned as they
    are. *)
Theorem loadData_falls_back (filePath : option jsstring)
  (g : RandomSource) :
  (forall message,
      fst (tryLoad fetch XLSX CONFIG filePath g) = Throw message ->
      loadData fetch XLSX CONFIG filePath g = (getFallbackData, g)) /\
  (forall message,
      loadStages fetch XLSX CONFIG filePath = Throw message ->
      loadData fetch XLSX CONFIG filePath g = (getFallbackData, g)) /\
  (forall rawData,
      loadStages fetch XLSX CONFIG filePath = Ok rawData ->
      List.length rawData < 2 ->
      loadData fetch XLSX CONFIG filePath g = (getFallbackData, g)) /\
  List.map id getFallbackData = [1; 2; 3].
Proof.
  assert (Hstage : forall message,
             loadStages fetch XLSX CONFIG filePath = Throw message ->
             loadData fetch XLSX CONFIG filePath g = (getFallbackData, g)).
  { intros message H.
    unfold loadData, tryLoad, bind, ret.
    now rewrite H. }
  assert (Hgrid : forall rawData,
             loadStages fetch XLSX CONFIG filePath = Ok rawData ->
             List.length rawData < 2 ->
             loadData fetch XLSX CONFIG filePath g = (getFallbackData, g)).
  { intros rawData H Hlen.
    unfold loadData, tryLoad, bind, ret.
    rewrite H. now rewrite processRawData_insufficient. }
  repeat split; auto.
  intros message H. unfold tryLoad in H.
  destruct (loadStages fetch XLSX CONFIG filePath) as [rawData|m] eqn:E.
  - apply processRawData_Throw in H. destruct H as [_ Hlen].
    now apply (Hgrid rawData).
  - now apply (Hstage m).
Qed.

(** The names of what [loadData] returns, sample included. *)
Lemma loadData_names (filePath : option jsstring) (g : RandomSource)
  (d : Doctor) :
  In d (fst (loadData fetch XLSX CONFIG filePath g)) ->
  name d <> [] /\ trim (name d) = name d.
Proof.
  unfold loadData, tryLoad, bind, ret.
  destruct (loadStages fetch XLSX CONFIG filePath) as [rawData|m].
  - destruct (processRawData rawData g) as [[doctors|m] g1] eqn:E; simpl.
    + now apply (processRawData_names rawData g g1).
    + intros [<-|[<-|[<-|[]]]]; split; (discriminate || reflexivity).
  - simpl. intros [<-|[<-|[<-|[]]]]; split; (discriminate || reflexivity).
Qed.

End LoadData.

Lemma loadData_falls_back_witness :
  loadData sampleFetch (Some (sampleXLSX [[str "Nome"]]))
    sampleConfig None halves = (getFallbackData, halves).
Proof.
  destruct (loadData_falls_back unit (list (list jsstring)) sampleFetch
              (Some (sampleXLSX [[str "Nome"]])) sampleConfig None halves)
    as (_ & _ & H & _).
  apply (H [[str "Nome"]]).
  - vm_compute. reflexivity.
  - simpl. lia.
Defined.

(** ** The filter engine *)

Lemma filter_filter_andb {A} (p q : A -> bool) (l : list A) :
  filter q (filter p l) = filter (fun x => p x && q x) l.
Proof.
  induction l as [|x l IH]; simpl; [reflexivity|].
  destruct (p x); simpl; [|exact IH].
  destruct (q x); now rewrite IH.
Qed.

Lemma filter_true {A} (l : list A) : filter (fun _ => true) l = l.
Proof. induction l; simpl; congruence. Qed.

Lemma filter_if {A} (c : bool) (p : A -> bool) (l : list A) :
  (if c then filter p l else l) = filter (fun x => if c then p x else true) l.
Proof. destruct c; [reflexivity | now rewrite filter_true]. Qed.

Lemma filter_shorter {A} (p : A -> bool) (l : list A) :
  List.length (filter p l) <= List.length l.
Proof. induction l as [|x l IH]; simpl; [lia|]. destruct (p x); simpl; lia. Qed.

(** [applyFilters] keeps exactly the Doctors that pass every condition. *)
Lemma applyFilters_passes (doctors : list Doctor) (f : FilterState) :
  applyFilters doctors f = filter (passes f) doctors.
Proof.
  unfold applyFilters, passes.
  rewrite !filter_if, !filter_filter_andb.
  apply filter_ext. intros d. now rewrite !andb_assoc.
Qed.

Lemma passes_raise_volume (f : FilterState) (m : number) (d : Doctor) :
  geb m (f_volume_min f) = true ->
  passes (updateVolumeRange m f) d = passes f d && geb (volume d) m.
Proof.
  intros Hm. unfold passes, updateVolumeRange. simpl.
  destruct (geb (volume d) m) eqn:E.
  - rewrite (geb_trans _ _ _ E Hm). now rewrite !andb_true_r.
  - now rewrite !andb_false_r.
Qed.

Lemma passes_raise_affinity (f : FilterState) (m : number)
  (d : Doctor) :
  geb m (f_affinity_min f) = true ->
  passes (updateAffinityRange m f) d = passes f d && geb (affinity d) m.
Proof.
  intros Hm. unfold passes, updateAffinityRange. simpl.
  destruct (geb (affinity d) m) eqn:E.
  - rewrite (geb_trans _ _ _ E Hm). now rewrite !andb_true_r.
  - now rewrite !andb_false_r.
Qed.

(** C8. Raising [volume.min], or [affinity.min], with every other field of
    the filter state unchanged: the new result is the old result filtered by
    the new threshold, so it is included in the old result and is not longer
    than it. *)
Theorem raising_min_shrinks_result (doctors : list Doctor)
  (f : FilterState) (m : number) :
  (geb m (f_volume_min f) = true ->
   let before := applyFilters doctors f in
   let after := applyFilters doctors (updateVolumeRange m f) in
   after = filter (fun d => geb (volume d) m) before /\
   incl after before /\
   List.length after <= List.length before) /\
  (geb m (f_affinity_min f) = true ->
   let before := applyFilters doctors f in
   let after := applyFilters doctors (updateAffinityRange m f) in
   after = filter (fun d => geb (affinity d) m) before /\
   incl after before /\
   List.length after <= List.length before).
Proof.
  split; intros Hm before after; subst before after.
  - assert (E : applyFilters doctors (updateVolumeRange m f) =
                filter (fun d => geb (volume d) m)
                       (applyFilters doctors f)).
    { rewrite !applyFilters_passes, filter_filter_andb.
      apply filter_ext. intros d. now apply passes_raise_volume. }
    rewrite E. split; [reflexivity|]. split.
    + apply incl_filter.
    + apply filter_shorter.
  - assert (E : applyFilters doctors (updateAffinityRange m f) =
                filter (fun d => geb (affinity d) m)
                       (applyFilters doctors f)).
    { rewrite !applyFilters_passes, filter_filter_andb.
      apply filter_ext. intros d. now apply passes_raise_affinity. }
    rewrite E. split; [reflexivity|]. split.
    + apply incl_filter.
    + apply filter_shorter.
Qed.

Lemma raising_min_shrinks_result_witness :
  let before := applyFilters getFallbackData clearedFilters in
  let after :=
    applyFilters getFallbackData
      (updateVolumeRange (ofZ 50) clearedFilters) in
  after = filter (fun d => geb (volume d) (ofZ 50)) before /\
  incl after before /\
  List.length after <= List.length before.
Proof.
  apply (proj1 (raising_min_shrinks_result getFallbackData
                  clearedFilters (ofZ 50))).
  vm_compute. reflexivity.
Defined.

(** C9. The quick-filter stage compares the priority with the tag in which
    the first hyphen is replaced by an underscore; the tag
    ["new-opportunities"] becomes ["new_opportunities"], which is not the
    spelling of the priority, and a Doctor of that priority is filtered
    out. *)
Theorem quick_filter_rejects_new_opportunities :
  let tag := str "new-opportunities" in
  let doctor := mkDoctor 3 (str "Dr. Pedro Oliveira") (str "ortopedia")
                  (str "incentivar") (ofZ 45) (ofZ 88)
                  (str "new-opportunities") None in
  let f := mkFilterState [] [] [] (ofZ 0) (ofZ 0) [tag] in
  priority doctor = tag /\
  replace tag (str "-") (str "_") = str "new_opportunities" /\
  quickMatch [tag] doctor = false /\
  applyFilters [doctor] f = [] /\
  applyFilters getFallbackData f = [].
Proof. repeat split; vm_compute; reflexivity. Qed.

(** The stage in general: a Doctor passes iff its priority is some active
    tag with its first hyphen replaced by an underscore. *)
Lemma quickMatch_iff (quickFilters : list jsstring) (doctor : Doctor) :
  quickMatch quickFilters doctor = true <->
  exists tag, In tag quickFilters /\
              priority doctor = replace tag (str "-") (str "_").
Proof.
  unfold quickMatch. rewrite existsb_exists.
  split; intros (tag & Hin & H); exists tag; split; auto;
    now apply jsstring_eqb_eq.
Qed.

(** No priority that [parsePriority] can return contains an underscore, so
    the tag of new-opportunities never matches one. *)
Lemma parsePriority_values (volume affinity : value) (seg : jsstring) :
  let p := parsePriority volume affinity seg in
  p = str "strategic" \/ p = str "high" \/ p = str "new-opportunities".
Proof.
  unfold parsePriority.
  destruct (JsString.eqb seg (str "blindar")); [auto|].
  destruct (_ || _); [auto|]. destruct (_ && _); auto.
Qed.

(** * Further properties of the loader *)

(** ** The specialty taxonomy *)

Lemma arrayIncludes_In (arr : list jsstring) (x : jsstring) :
  arrayIncludes arr x = true <-> In x arr.
Proof.
  unfold arrayIncludes. rewrite existsb_exists. split.
  - intros (y & Hy & E). apply jsstring_eqb_eq in E. now subst.
  - intros H. exists x. split; [exact H|]. now apply jsstring_eqb_eq.
Qed.

Lemma specialtyMap_values_in_taxonomy (kv : jsstring * jsstring) :
  In kv specialtyMap -> In (snd kv) taxonomy.
Proof.
  assert (H : forallb (fun e => arrayIncludes taxonomy (snd e)) specialtyMap
              = true) by (vm_compute; reflexivity).
  rewrite forallb_forall in H. intros Hin.
  apply arrayIncludes_In. now apply H.
Qed.

Lemma outras_in_taxonomy : In (str "outras") taxonomy.
Proof. apply arrayIncludes_In. vm_compute. reflexivity. Qed.

Lemma parseSpecialty_taxonomy (text : jsstring) :
  In (parseSpecialty text) taxonomy.
Proof.
  unfold parseSpecialty. destruct text as [|c t].
  - apply outras_in_taxonomy.
  - destruct (find _ specialtyMap) as [kv|] eqn:E.
    + apply find_some in E. now apply specialtyMap_values_in_taxonomy.
    + apply outras_in_taxonomy.
Qed.

(** X1. [parseSpecialty] always returns one of the 24 keys of the taxonomy,
    whatever the text. *)
Theorem parseSpecialty_in_taxonomy (text : jsstring) :
  In (parseSpecialty text) taxonomy /\ List.length taxonomy = 24.
Proof.
  split; [apply parseSpecialty_taxonomy | reflexivity].
Qed.

Lemma displayLookup_taxonomy (key : jsstring) :
  In key taxonomy ->
  exists c label, FiltersModule.displayLookup key = Some (c :: label).
Proof.
  assert (H : forallb (fun k => match FiltersModule.displayLookup k with
                                | Some (_ :: _) => true
                                | _ => false
                                end) taxonomy = true)
    by (vm_compute; reflexivity).
  rewrite forallb_forall in H. intros Hin. specialize (H key Hin).
  destruct (FiltersModule.displayLookup key) as [[|c label]|];
    try discriminate. eauto.
Qed.

Lemma displayLookup_outside (spec : jsstring) :
  ~ In spec taxonomy -> FiltersModule.displayLookup spec = None.
Proof.
  intros Hout. unfold FiltersModule.displayLookup.
  destruct (find _ FiltersModule.displayNames) as [kv|] eqn:E;
    [|reflexivity].
  apply find_some in E. destruct E as [Hin E].
  apply jsstring_eqb_eq in E. subst spec.
  exfalso. apply Hout. unfold taxonomy. now apply in_map.
Qed.

(** X2. Every specialty that [parseSpecialty] can return has an entry of its
    own in the table of [getSpecialtyDisplayName], which returns that label,
    whatever the object inherits; for a key outside the table the result is
    the member that the object inherits under that key, if there is one
    (as for [constructor]), and otherwise the key itself. *)
Theorem display_name_of_parsed_specialty (inherits : jsstring -> bool) :
  (forall text : jsstring,
      exists label,
        In (parseSpecialty text, label) FiltersModule.displayNames /\
        label <> [] /\
        FiltersModule.getSpecialtyDisplayName inherits (parseSpecialty text)
        = FiltersModule.Text label) /\
  (forall spec : jsstring,
      ~ In spec taxonomy ->
      FiltersModule.getSpecialtyDisplayName inherits spec =
      if inherits spec then FiltersModule.InheritedMember spec
      else FiltersModule.Text spec).
Proof.
  split.
  - intros text.
    pose proof (parseSpecialty_taxonomy text) as Hin.
    destruct (displayLookup_taxonomy _ Hin) as (c & label & E).
    exists (c :: label). split; [|split; [discriminate|]].
    + unfold FiltersModule.displayLookup in E.
      destruct (find _ FiltersModule.displayNames) as [kv|] eqn:F;
        [|discriminate].
      apply find_some in F. destruct F as [Hkv Hk].
      apply jsstring_eqb_eq in Hk. simpl in E. injection E as E.
      destruct kv as [k v]. simpl in *. now subst.
    + unfold FiltersModule.getSpecialtyDisplayName. now rewrite E.
  - intros spec Hout. unfold FiltersModule.getSpecialtyDisplayName.
    now rewrite displayLookup_outside.
Qed.

Lemma display_name_of_parsed_specialty_witness :
  FiltersModule.getSpecialtyDisplayName FiltersModule.inheritsStandard
    (str "cardiologista") = FiltersModule.Text (str "cardiologista") /\
  FiltersModule.getSpecialtyDisplayName FiltersModule.inheritsStandard
    (str "constructor") = FiltersModule.InheritedMember (str "constructor").
Proof.
  split.
  - apply (proj2 (display_name_of_parsed_specialty
                    FiltersModule.inheritsStandard) (str "cardiologista")).
    intros H. apply arrayIncludes_In in H. vm_compute in H. discriminate.
  - apply (proj2 (display_name_of_parsed_specialty
                    FiltersModule.inheritsStandard) (str "constructor")).
    intros H. apply arrayIncludes_In in H. vm_compute in H. discriminate.
Defined.

(** X3. [parseSpecialty] ignores the white space around the text, and a text
    of white space only gives outras. *)
Theorem parseSpecialty_trim (text : jsstring) :
  parseSpecialty text = parseSpecialty (trim text) /\
  (trim text = [] -> parseSpecialty text = str "outras").
Proof.
  assert (Hblank : forall c t, trim (c :: t) = [] ->
                               parseSpecialty (c :: t) = str "outras").
  { intros c t E. unfold parseSpecialty, normalizeString, toLowerCase.
    rewrite E. reflexivity. }
  destruct text as [|c t].
  - split; reflexivity.
  - destruct (trim (c :: t)) as [|c' t'] eqn:E.
    + split; [|intros _]; now apply Hblank.
    + split; [|discriminate].
      unfold parseSpecialty, normalizeString.
      rewrite <- E, trim_idem. reflexivity.
Qed.

Lemma parseSpecialty_trim_witness :
  parseSpecialty (str "   ") = str "outras".
Proof.
  apply (proj2 (parseSpecialty_trim (str "   "))). reflexivity.
Defined.

(** X4. Parsing a returned key again gives the same key, except for
    medicina-interna, which no pattern of the table recognises and which is
    parsed to outras. *)
Theorem parseSpecialty_again (text : jsstring) :
  parseSpecialty (parseSpecialty text) =
  if JsString.eqb (parseSpecialty text) (str "medicina-interna")
  then str "outras"
  else parseSpecialty text.
Proof.
  assert (H : forallb (fun k =>
                JsString.eqb (parseSpecialty k)
                  (if JsString.eqb k (str "medicina-interna")
                   then str "outras" else k)) taxonomy = true)
    by (vm_compute; reflexivity).
  rewrite forallb_forall in H.
  apply jsstring_eqb_eq. apply H. apply parseSpecialty_taxonomy.
Qed.

(** ** Column resolution *)

Lemma identifyFrom_app (l1 l2 : list jsstring) :
  forall (i : nat) (m : ColumnMap),
    identifyFrom (l1 ++ l2) i m =
    identifyFrom l2 (i + List.length l1) (identifyFrom l1 i m).
Proof.
  induction l1 as [|h l1 IH]; intros i m; simpl.
  - now rewrite Nat.add_0_r.
  - rewrite IH. f_equal. lia.
Qed.

Section FieldResolution.

(** One of the four fields: its patterns and its entry of the column map. *)
Variable keys : list jsstring.
Variable field : ColumnMap -> option nat.
Hypothesis field_step :
  forall (m : ColumnMap) (h : jsstring) (i : nat),
    field (identifyStep m h i) =
    if headerMatches keys h then Some i else field m.
Hypothesis field_init : field (mkColumnMap None None None None) = None.

Lemma field_resolved (headers : list jsstring) :
  match field (identifyColumns headers) with
  | Some j =>
      exists h, nth_error headers j = Some h /\
                headerMatches keys h = true /\
                forallb (fun h' => negb (headerMatches keys h'))
                        (skipn (S j) headers) = true
  | None =>
      forallb (fun h' => negb (headerMatches keys h')) headers = true
  end.
Proof.
  unfold identifyColumns.
  induction headers as [|h l IH] using rev_ind.
  - simpl. now rewrite field_init.
  - rewrite identifyFrom_app. cbn [identifyFrom Nat.add]. rewrite field_step.
    destruct (headerMatches keys h) eqn:Eh.
    + exists h. repeat split.
      * rewrite nth_error_app2 by lia. now rewrite Nat.sub_diag.
      * exact Eh.
      * rewrite skipn_all2; [reflexivity|]. rewrite length_app. simpl. lia.
    + destruct (field (identifyFrom l 0 _)) as [j|].
      * destruct IH as (h0 & Hn & Hm & Hrest).
        assert (Hj : j < List.length l)
          by (apply nth_error_Some; congruence).
        exists h0. repeat split.
        -- rewrite nth_error_app1 by exact Hj. exact Hn.
        -- exact Hm.
        -- rewrite skipn_app.
           replace (S j - List.length l) with 0 by lia.
           rewrite forallb_app, Hrest. simpl. now rewrite Eh.
      * rewrite forallb_app, IH. simpl. now rewrite Eh.
Qed.

Lemma field_resolved_iff (headers : list jsstring) (j : nat) :
  field (identifyColumns headers) = Some j <->
  exists h, nth_error headers j = Some h /\
            headerMatches keys h = true /\
            forallb (fun h' => negb (headerMatches keys h'))
                    (skipn (S j) headers) = true.
Proof.
  pose proof (field_resolved headers) as H.
  split.
  - intros E. now rewrite E in H.
  - intros (h & Hn & Hm & Hrest).
    assert (Hnone : forallb (fun h' => negb (headerMatches keys h')) headers
                    = true -> False).
    { intros Hall. rewrite forallb_forall in Hall.
      apply nth_error_In in Hn. apply Hall in Hn.
      rewrite Hm in Hn. discriminate. }
    destruct (field (identifyColumns headers)) as [k|]; [|now exfalso].
    destruct H as (hk & Hkn & Hkm & Hkrest).
    f_equal.
    destruct (Nat.lt_trichotomy k j) as [Hlt|[->|Hgt]]; [|reflexivity|].
    + exfalso. rewrite forallb_forall in Hkrest.
      assert (Hin : In h (skipn (S k) headers)).
      { apply (nth_error_In _ (j - S k)). rewrite nth_error_skipn.
        now replace (S k + (j - S k)) with j by lia. }
      apply Hkrest in Hin. rewrite Hm in Hin. discriminate.
    + exfalso. rewrite forallb_forall in Hrest.
      assert (Hin : In hk (skipn (S j) headers)).
      { apply (nth_error_In _ (k - S j)). rewrite nth_error_skipn.
        now replace (S j + (k - S j)) with k by lia. }
      apply Hrest in Hin. rewrite Hkm in Hin. discriminate.
Qed.

Lemma field_unresolved_iff (headers : list jsstring) :
  field (identifyColumns headers) = None <->
  forallb (fun h' => negb (headerMatches keys h')) headers = true.
Proof.
  pose proof (field_resolved headers) as H.
  split.
  - intros E. now rewrite E in H.
  - intros Hall. destruct (field (identifyColumns headers)) as [j|];
      [|reflexivity].
    destruct H as (h & Hn & Hm & _).
    rewrite forallb_forall in Hall.
    apply nth_error_In in Hn. apply Hall in Hn.
    rewrite Hm in Hn. discriminate.
Qed.

End FieldResolution.

Lemma step_name (m : ColumnMap) (h : jsstring) (i : nat) :
  cm_name (identifyStep m h i) =
  if headerMatches nameKeys h then Some i else cm_name m.
Proof. apply identifyStep_name. Qed.

Lemma step_specialty (m : ColumnMap) (h : jsstring) (i : nat) :
  cm_specialty (identifyStep m h i) =
  if headerMatches specialtyKeys h then Some i else cm_specialty m.
Proof.
  unfold identifyStep, headerMatches.
  destruct (anyIncludes _ nameKeys), (anyIncludes _ specialtyKeys),
    (anyIncludes _ volumeKeys), (anyIncludes _ affinityKeys); reflexivity.
Qed.

Lemma step_volume (m : ColumnMap) (h : jsstring) (i : nat) :
  cm_volume (identifyStep m h i) =
  if headerMatches volumeKeys h then Some i else cm_volume m.
Proof.
  unfold identifyStep, headerMatches.
  destruct (anyIncludes _ nameKeys), (anyIncludes _ specialtyKeys),
    (anyIncludes _ volumeKeys), (anyIncludes _ affinityKeys); reflexivity.
Qed.

Lemma step_affinity (m : ColumnMap) (h : jsstring) (i : nat) :
  cm_affinity (identifyStep m h i) =
  if headerMatches affinityKeys h then Some i else cm_affinity m.
Proof.
  unfold identifyStep, headerMatches.
  destruct (anyIncludes _ nameKeys), (anyIncludes _ specialtyKeys),
    (anyIncludes _ volumeKeys), (anyIncludes _ affinityKeys); reflexivity.
Qed.

(** X5. For each of the four fields, [identifyColumns] resolves the field to
    the index [j] exactly when the header at [j] matches the patterns of
    the field and no header after it does: the last matching header wins,
    and each field is resolved without regard to the others. *)
Theorem identifyColumns_last_match (headers : list jsstring) (j : nat) :
  Forall (fun kf =>
            snd kf (identifyColumns headers) = Some j <->
            exists h, nth_error headers j = Some h /\
                      headerMatches (fst kf) h = true /\
                      forallb (fun h' => negb (headerMatches (fst kf) h'))
                              (skipn (S j) headers) = true)
         fieldsOfColumnMap.
Proof.
  unfold fieldsOfColumnMap.
  apply Forall_cons; [|apply Forall_cons; [|apply Forall_cons;
    [|apply Forall_cons; [|apply Forall_nil]]]]; cbn [fst snd].
  - exact (field_resolved_iff nameKeys cm_name step_name eq_refl headers j).
  - exact (field_resolved_iff specialtyKeys cm_specialty step_specialty eq_refl
             headers j).
  - exact (field_resolved_iff volumeKeys cm_volume step_volume eq_refl
             headers j).
  - exact (field_resolved_iff affinityKeys cm_affinity step_affinity eq_refl
             headers j).
Qed.

(** X6. A field stays unresolved ([null]) exactly when no header matches its
    patterns, and a resolved index always lies inside the header row. *)
Theorem identifyColumns_unresolved (headers : list jsstring) :
  Forall (fun kf =>
            (snd kf (identifyColumns headers) = None <->
             forallb (fun h' => negb (headerMatches (fst kf) h')) headers
             = true) /\
            (forall j, snd kf (identifyColumns headers) = Some j ->
                       j < List.length headers))
         fieldsOfColumnMap.
Proof.
  assert (Hb : forall keys field,
             (forall m h i, field (identifyStep m h i) =
                            if headerMatches keys h then Some i
                            else field m) ->
             field (mkColumnMap None None None None) = None ->
             forall j, field (identifyColumns headers) = Some j ->
                       j < List.length headers).
  { intros keys field Hs Hi j E.
    apply (field_resolved_iff keys field Hs Hi) in E.
    destruct E as (h & Hn & _). apply nth_error_Some. congruence. }
  unfold fieldsOfColumnMap.
  apply Forall_cons; [|apply Forall_cons; [|apply Forall_cons;
    [|apply Forall_cons; [|apply Forall_nil]]]]; cbn [fst snd].
  - split.
    + exact (field_unresolved_iff nameKeys cm_name step_name eq_refl headers).
    + exact (Hb nameKeys cm_name step_name eq_refl).
  - split.
    + exact (field_unresolved_iff specialtyKeys cm_specialty step_specialty eq_refl
               headers).
    + exact (Hb specialtyKeys cm_specialty step_specialty eq_refl).
  - split.
    + exact (field_unresolved_iff volumeKeys cm_volume step_volume eq_refl
               headers).
    + exact (Hb volumeKeys cm_volume step_volume eq_refl).
  - split.
    + exact (field_unresolved_iff affinityKeys cm_affinity step_affinity eq_refl
               headers).
    + exact (Hb affinityKeys cm_affinity step_affinity eq_refl).
Qed.

Lemma identifyColumns_unresolved_witness :
  cm_name (identifyColumns twoNameSheetHeaders) = Some 2 /\
  2 < List.length twoNameSheetHeaders.
Proof.
  pose proof (identifyColumns_unresolved twoNameSheetHeaders) as H.
  apply Forall_inv in H. destruct H as [_ H].
  split; [reflexivity|]. apply H. reflexivity.
Defined.

(** ** Random draws of a row *)

Lemma orRandom_cases (v : value) (g : RandomSource) :
  (truthy v = true /\ orRandom v g = (v, g)) \/
  (truthy v = false /\
   orRandom v g = (VNumber (Fin (draws g (consumed g) * 100)),
                   mkRandom (draws g) (S (consumed g)))).
Proof.
  unfold orRandom. destruct (truthy v); [left | right]; split; reflexivity.
Qed.

Lemma numberOrRandom_cases (n : number) (g : RandomSource) :
  (JsNumber.truthy n = true /\ numberOrRandom n g = (n, g)) \/
  (JsNumber.truthy n = false /\
   numberOrRandom n g = (Fin (draws g (consumed g) * 100),
                         mkRandom (draws g) (S (consumed g)))).
Proof.
  unfold numberOrRandom.
  destruct (JsNumber.truthy n); [left | right]; split; reflexivity.
Qed.

(** The source after the four statements of [processRow] that may draw. *)
Lemma processedNumbers_source (row headers : list jsstring)
  (g : RandomSource) :
  let g' := snd (processedNumbers row headers g) in
  draws g' = draws g /\
  consumed g <= consumed g' <= consumed g + 4.
Proof.
  unfold processedNumbers, bind, ret.
  destruct (orRandom_cases
              (cell row (cm_volume (identifyColumns headers))) g)
    as [[_ E1]|[_ E1]]; rewrite E1; clear E1;
  match goal with
  | |- context [orRandom ?v ?g1] =>
      destruct (orRandom_cases v g1) as [[_ E2]|[_ E2]]; rewrite E2; clear E2
  end;
  match goal with
  | |- context [numberOrRandom ?n ?g2] =>
      destruct (numberOrRandom_cases n g2) as [[_ E3]|[_ E3]];
      rewrite E3; clear E3
  end;
  match goal with
  | |- context [numberOrRandom ?n ?g3] =>
      destruct (numberOrRandom_cases n g3) as [[_ E4]|[_ E4]];
      rewrite E4; clear E4
  end; simpl; split; try reflexivity; lia.
Qed.

Lemma processRow_source (row headers : list jsstring) (n : nat)
  (g : RandomSource) :
  let g' := snd (processRow row headers n g) in
  draws g' = draws g /\
  consumed g <= consumed g' <= consumed g + 4.
Proof.
  destruct (processRow row headers n g) as [[d|] g'] eqn:E.
  - destruct (processRow_Some _ _ _ _ _ _ E) as (k & nm & _ & _ & _ & H).
    destruct H as (-> & _). apply processedNumbers_source.
  - assert (g' = g); [|subst; simpl; split; [reflexivity | lia]].
    revert E. unfold processRow.
    destruct (notIndex _); [unfold ret; congruence|].
    destruct (cell row _) as [|nm|x]; try (unfold ret; congruence).
    destruct (_ || _); [unfold ret; congruence|].
    unfold bind, ret.
    destruct (orRandom _ g) as [vol g1].
    destruct (orRandom _ g1) as [aff g2].
    destruct (numberOrRandom (parseFloat vol) g2) as [pv g3].
    destruct (numberOrRandom (parseFloat aff) g3) as [pa g4].
    discriminate.
Qed.

(** ** The collection built by the loop *)

Lemma forEachRow_acc (headers : list jsstring)
  (rows : list (list jsstring)) :
  forall (i : nat) (acc : list Doctor) (g : RandomSource),
    forEachRow rows headers i acc g =
    (acc ++ fst (forEachRow rows headers i [] g),
     snd (forEachRow rows headers i [] g)).
Proof.
  induction rows as [|row rest IH]; intros i acc g; simpl.
  - unfold ret. simpl. now rewrite app_nil_r.
  - unfold bind.
    destruct (processRow row headers (i + 2) g) as [[d|] g1].
    + rewrite IH. rewrite (IH (S i) ([] ++ [d])). simpl.
      now rewrite <- app_assoc.
    + apply IH.
Qed.

Lemma forEachRow_cons (headers row : list jsstring)
  (rest : list (list jsstring)) (i : nat) (g : RandomSource) :
  forEachRow (row :: rest) headers i [] g =
  let '(o, g1) := processRow row headers (i + 2) g in
  ((match o with Some d => [d] | None => [] end)
     ++ fst (forEachRow rest headers (S i) [] g1),
   snd (forEachRow rest headers (S i) [] g1)).
Proof.
  simpl. unfold bind.
  destruct (processRow row headers (i + 2) g) as [[d|] g1].
  - now rewrite forEachRow_acc.
  - now rewrite forEachRow_acc.
Qed.

Lemma forEachRow_source (headers : list jsstring)
  (rows : list (list jsstring)) :
  forall (i : nat) (g : RandomSource),
    let g' := snd (forEachRow rows headers i [] g) in
    draws g' = draws g /\
    consumed g <= consumed g' <= consumed g + 4 * List.length rows.
Proof.
  induction rows as [|row rest IH]; intros i g.
  - simpl. split; [reflexivity | lia].
  - rewrite forEachRow_cons.
    pose proof (processRow_source row headers (i + 2) g) as Hp.
    destruct (processRow row headers (i + 2) g) as [o g1].
    simpl in Hp. destruct Hp as [Hd Hc].
    specialize (IH (S i) g1). simpl in IH. destruct IH as [Hd' Hc'].
    cbn [snd List.length]. split; [congruence | lia].
Qed.

(** Where each collected Doctor comes from. *)
Lemma forEachRow_origin (headers : list jsstring)
  (rows : list (list jsstring)) :
  forall (i : nat) (g : RandomSource),
    Forall (fun d =>
              i + 2 <= id d < i + 2 + List.length rows /\
              exists row g0,
                nth_error rows (id d - (i + 2)) = Some row /\
                draws g0 = draws g /\
                fst (processRow row headers (id d) g0) = Some d)
           (fst (forEachRow rows headers i [] g)) /\
    StronglySorted lt (List.map id (fst (forEachRow rows headers i [] g))).
Proof.
  induction rows as [|row rest IH]; intros i g.
  - simpl. split; constructor.
  - rewrite forEachRow_cons.
    pose proof (processRow_source row headers (i + 2) g) as Hsrc.
    destruct (processRow row headers (i + 2) g) as [o g1] eqn:E.
    simpl in Hsrc. destruct Hsrc as [Hdraws _].
    destruct (IH (S i) g1) as [Hall Hsorted]. cbn [fst].
    assert (Hrest :
      Forall (fun d =>
                i + 2 < id d /\
                i + 2 <= id d < i + 2 + List.length (row :: rest) /\
                exists row0 g0,
                  nth_error (row :: rest) (id d - (i + 2)) = Some row0 /\
                  draws g0 = draws g /\
                  fst (processRow row0 headers (id d) g0) = Some d)
             (fst (forEachRow rest headers (S i) [] g1))).
    { eapply Forall_impl; [|exact Hall].
      intros d (Hb & r & g0 & Hn & Hd & Hp). simpl List.length.
      split; [lia|]. split; [lia|].
      exists r, g0. split; [|split; [congruence | exact Hp]].
      replace (id d - (i + 2)) with (S (id d - (S i + 2))) by lia.
      exact Hn. }
    destruct o as [d0|].
    + destruct (processRow_Some _ _ _ _ _ _ E)
        as (k & nm & _ & _ & _ & _ & Hid & _).
      split.
      * simpl. constructor.
        -- split; [simpl; lia|]. exists row, g.
           rewrite Hid, Nat.sub_diag. simpl. rewrite E. auto.
        -- eapply Forall_impl; [|exact Hrest]. intros d H. apply H.
      * simpl. constructor; [exact Hsorted|].
        rewrite Forall_map. eapply Forall_impl; [|exact Hrest].
        intros d H. rewrite Hid. apply H.
    + split.
      * simpl. eapply Forall_impl; [|exact Hrest]. intros d H. apply H.
      * exact Hsorted.
Qed.

Lemma forEachRow_length (headers : list jsstring)
  (rows : list (list jsstring)) :
  forall (i : nat) (g : RandomSource),
    List.length (fst (forEachRow rows headers i [] g)) <= List.length rows.
Proof.
  induction rows as [|row rest IH]; intros i g.
  - simpl. lia.
  - rewrite forEachRow_cons.
    destruct (processRow row headers (i + 2) g) as [[d|] g1];
      cbn [fst]; rewrite length_app; specialize (IH (S i) g1); simpl; lia.
Qed.

Lemma processRawData_Ok (rawData : list (list jsstring))
  (g g' : RandomSource) (doctors : list Doctor) :
  processRawData rawData g = (Ok doctors, g') ->
  exists headers row rows,
    rawData = headers :: row :: rows /\
    doctors = fst (forEachRow (row :: rows) headers 0 [] g) /\
    g' = snd (forEachRow (row :: rows) headers 0 [] g).
Proof.
  unfold processRawData.
  destruct rawData as [|headers [|row rows]]; try (unfold ret; congruence).
  unfold bind, ret.
  destruct (forEachRow (row :: rows) headers 0 [] g) as [ds g1] eqn:E.
  intros [= <- <-]. exists headers, row, rows. rewrite E. auto.
Qed.

(** X7. The ids of the collection are the 1-based sheet rows of the
    Doctors: they increase strictly along the collection (hence are
    distinct), lie between 2 and the number of grid rows, equal
    [originalRow], and each Doctor is what [processRow] makes of the grid
    row at its id; the collection has at most one Doctor per data row. *)
Theorem processRawData_ids (rawData : list (list jsstring))
  (g g' : RandomSource) (doctors : list Doctor) :
  processRawData rawData g = (Ok doctors, g') ->
  StronglySorted lt (List.map id doctors) /\
  NoDup (List.map id doctors) /\
  List.length doctors <= List.length rawData - 1 /\
  Forall (fun d =>
            2 <= id d <= List.length rawData /\
            originalRow d = Some (id d) /\
            exists headers row g0,
              nth_error rawData 0 = Some headers /\
              nth_error rawData (id d - 1) = Some row /\
              fst (processRow row headers (id d) g0) = Some d)
         doctors.
Proof.
  intros Hrun.
  destruct (processRawData_Ok _ _ _ _ Hrun)
    as (headers & row & rows & -> & -> & _).
  destruct (forEachRow_origin headers (row :: rows) 0 g) as [Hall Hsorted].
  split; [exact Hsorted|]. split; [|split].
  - clear Hall.
    induction Hsorted as [|x l Hs IH Hx]; constructor; auto.
    intros Hin. rewrite Forall_forall in Hx. apply Hx in Hin. lia.
  - pose proof (forEachRow_length headers (row :: rows) 0 g). simpl in *. lia.
  - eapply Forall_impl; [|exact Hall].
    intros d (Hb & r & g0 & Hn & _ & Hp).
    split; [simpl in *; lia|]. split.
    + destruct (processRow r headers (id d) g0) as [o g1] eqn:E.
      simpl in Hp. subst o.
      destruct (processRow_Some _ _ _ _ _ _ E)
        as (k & nm & _ & _ & _ & _ & Hid & Horig & _).
      congruence.
    + exists headers, r, g0. split; [reflexivity|]. split; [|exact Hp].
      replace (id d - 1) with (S (id d - (0 + 2))) by (simpl in *; lia).
      exact Hn.
Qed.

Lemma processRawData_ids_witness :
  StronglySorted lt [2; 4] /\ NoDup [2; 4].
Proof.
  destruct (processRawData_ids blankNameSheet halves halves
              [ mkDoctor 2 (str "Dr. A") (str "outras") (str "avaliar")
                  (ofZ 70) (ofZ 50) (str "strategic") (Some 2);
                mkDoctor 4 (str "Dr. C") (str "outras") (str "incentivar")
                  (ofZ 30) (ofZ 90) (str "high") (Some 4) ])
    as (H1 & H2 & _).
  - vm_compute. reflexivity.
  - split; [exact H1 | exact H2].
Defined.

(** X12. Ingestion never rewinds or replaces the random source: the draws
    stay the same, and a sheet consumes at most four of them per data
    row. *)
Theorem processRawData_draws (rawData : list (list jsstring))
  (g : RandomSource) :
  let g' := snd (processRawData rawData g) in
  draws g' = draws g /\
  consumed g <= consumed g' <= consumed g + 4 * (List.length rawData - 1).
Proof.
  unfold processRawData.
  destruct rawData as [|headers [|row rows]];
    try (simpl; split; [reflexivity | lia]).
  unfold bind, ret.
  pose proof (forEachRow_source headers (row :: rows) 0 g) as H.
  destruct (forEachRow (row :: rows) headers 0 [] g) as [ds g1].
  simpl in *. destruct H as [Hd Hc]. split; [exact Hd | lia].
Qed.

(** ** What the record builder stores *)

Lemma processRow_specialty (row headers : list jsstring) (n : nat)
  (g g' : RandomSource) (d : Doctor) :
  processRow row headers n g = (Some d, g') ->
  specialty d = parseSpecialty (specialtyText row headers).
Proof.
  unfold processRow, specialtyText. intros H.
  destruct (notIndex _); [unfold ret in H; discriminate H|].
  destruct (cell row (cm_name _)) as [|nm|x];
    try (unfold ret in H; discriminate H).
  destruct (_ || _); [unfold ret in H; discriminate H|].
  revert H. unfold bind, ret.
  destruct (orRandom _ g) as [vol g1].
  destruct (orRandom _ g1) as [aff g2].
  destruct (numberOrRandom (parseFloat vol) g2) as [pv g3].
  destruct (numberOrRandom (parseFloat aff) g3) as [pa g4].
  intros [= <- <-]. reflexivity.
Qed.

Lemma parseSegment_values (v a : value) :
  In (parseSegment v a) segmentKeys.
Proof.
  unfold parseSegment, segmentKeys.
  destruct (_ && _); [simpl; auto|].
  destruct (_ && _); [simpl; auto|].
  destruct (_ && _); simpl; auto.
Qed.

Lemma Math_round_whole (x : number) :
  x <> NaN -> wholeOrInfinite (Math_round x).
Proof.
  unfold wholeOrInfinite, isInteger.
  destruct x as [| | |q]; simpl; intros H; auto; [congruence|].
  left. eauto.
Qed.

Lemma processRawData_segments (rawData : list (list jsstring))
  (g g' : RandomSource) (doctors : list Doctor) (d : Doctor) :
  processRawData rawData g = (Ok doctors, g') ->
  In d doctors -> In (segment d) segmentKeys.
Proof.
  intros Hrun Hin.
  destruct (processRawData_In _ _ _ _ _ Hrun Hin)
    as (headers & dataRows & row & n & g0 & _ & _ & Hp).
  destruct (processRow row headers n g0) as [o g1] eqn:E.
  simpl in Hp. subst o.
  destruct (processRow_Some _ _ _ _ _ _ E)
    as (k & nm & _ & _ & _ & _ & _ & _ & _ & Hseg & _).
  rewrite Hseg. apply parseSegment_values.
Qed.

(** X8. Every Doctor of the collection carries a segment among the four
    keys, a priority among the three keys and a specialty of the taxonomy;
    its volume and affinity are never [NaN]: each is a whole number or, for
    a cell such as [Infinity], an infinity. *)
Theorem processRawData_fields (rawData : list (list jsstring))
  (g g' : RandomSource) (doctors : list Doctor) :
  processRawData rawData g = (Ok doctors, g') ->
  Forall (fun d =>
            In (segment d) segmentKeys /\
            In (priority d) priorityKeys /\
            In (specialty d) taxonomy /\
            wholeOrInfinite (volume d) /\
            wholeOrInfinite (affinity d))
         doctors.
Proof.
  intros Hrun. apply Forall_forall. intros d Hin.
  destruct (processRawData_In _ _ _ _ _ Hrun Hin)
    as (headers & dataRows & row & n & g0 & _ & _ & Hp).
  destruct (processRow row headers n g0) as [o g1] eqn:E.
  simpl in Hp. subst o.
  pose proof (processRow_specialty _ _ _ _ _ _ E) as Hspec.
  destruct (processRow_Some _ _ _ _ _ _ E)
    as (k & nm & _ & _ & _ & _ & _ & _ & _ & Hseg & Hpri & Hvol & Haff).
  destruct (processedNumbers_not_NaN row headers g0) as [Hv Ha].
  repeat split.
  - rewrite Hseg. apply parseSegment_values.
  - rewrite Hpri. unfold priorityKeys.
    destruct (parsePriority_values
                (VNumber (fst (fst (processedNumbers row headers g0))))
                (VNumber (snd (fst (processedNumbers row headers g0))))
                (segment d)) as [H|[H|H]]; rewrite H; simpl; auto.
  - rewrite Hspec. apply parseSpecialty_taxonomy.
  - rewrite Hvol. now apply Math_round_whole.
  - rewrite Haff. now apply Math_round_whole.
Qed.

Lemma processRawData_fields_witness :
  Forall (fun d =>
            In (segment d) segmentKeys /\
            In (priority d) priorityKeys /\
            In (specialty d) taxonomy /\
            wholeOrInfinite (volume d) /\
            wholeOrInfinite (affinity d))
         [ mkDoctor 2 (str "Dr. A") (str "outras") (str "avaliar")
             PosInf NegInf (str "high") (Some 2) ].
Proof.
  apply (processRawData_fields infiniteSheet halves halves).
  vm_compute. reflexivity.
Defined.

Lemma ltb_40_not_geb_60 (x : number) :
  ltb x (ofZ 40) = true -> geb x (ofZ 60) = false.
Proof.
  destruct x as [| | |q]; try (unfold ltb; simpl; congruence);
    try reflexivity.
  unfold ofZ. rewrite ltb_Fin. intros H.
  destruct (geb (Fin q) (Fin (inject_Z 60))) eqn:E; [|reflexivity].
  apply geb_Fin in E.
  change (inject_Z 60) with (60 # 1)%Q in E.
  change (inject_Z 40) with (40 # 1)%Q in H. lra.
Qed.

(** X9. In the collection, segment and priority agree: a blindar Doctor is
    strategic, a high Doctor is not blindar, and a new-opportunities Doctor
    is always in conquistar. *)
Theorem processRawData_priority_of_segment (rawData : list (list jsstring))
  (g g' : RandomSource) (doctors : list Doctor) :
  processRawData rawData g = (Ok doctors, g') ->
  Forall (fun d =>
            (segment d = str "blindar" -> priority d = str "strategic") /\
            (priority d = str "high" -> segment d <> str "blindar") /\
            (priority d = str "new-opportunities" ->
             segment d = str "conquistar"))
         doctors.
Proof.
  intros Hrun. apply Forall_forall. intros d Hin.
  destruct (processRawData_In _ _ _ _ _ Hrun Hin)
    as (headers & dataRows & row & n & g0 & _ & _ & Hp).
  destruct (processRow row headers n g0) as [o g1] eqn:E.
  simpl in Hp. subst o.
  destruct (processRow_Some _ _ _ _ _ _ E)
    as (k & nm & _ & _ & _ & _ & _ & _ & _ & Hseg & Hpri & _).
  destruct (processedNumbers_not_NaN row headers g0) as [Hv Ha].
  set (pv := fst (fst (processedNumbers row headers g0))) in *.
  set (pa := snd (fst (processedNumbers row headers g0))) in *.
  rewrite (parsePriority_number pv pa _ Hv Ha) in Hpri.
  assert (Hblindar : segment d = str "blindar" ->
                     priority d = str "strategic").
  { intros Hb. rewrite Hpri, Hb. reflexivity. }
  split; [exact Hblindar|]. split.
  - intros Hhigh Hb. rewrite (Hblindar Hb) in Hhigh. str_discr.
  - intros Hnew.
    destruct (JsString.eqb (segment d) (str "blindar"));
      [rewrite Hpri in Hnew; str_discr|].
    destruct (gtb pv (ofZ 80) || gtb pa (ofZ 80));
      [rewrite Hpri in Hnew; str_discr|].
    destruct (ltb pv (ofZ 40)) eqn:Lv; simpl in Hpri;
      [|rewrite Hpri in Hnew; str_discr].
    destruct (ltb pa (ofZ 40)) eqn:La;
      [|rewrite Hpri in Hnew; str_discr].
    rewrite Hseg, (parseSegment_number pv pa Hv Ha).
    rewrite (ltb_40_not_geb_60 _ Lv), (ltb_40_not_geb_60 _ La).
    simpl. rewrite andb_false_r. reflexivity.
Qed.

Lemma processRawData_priority_of_segment_witness :
  Forall (fun d =>
            (segment d = str "blindar" -> priority d = str "strategic") /\
            (priority d = str "high" -> segment d <> str "blindar") /\
            (priority d = str "new-opportunities" ->
             segment d = str "conquistar"))
         [mkDoctor 2 (str "Dr. Teste") (str "cardiologia") (str "blindar")
            (ofZ 85) (ofZ 90) (str "strategic") (Some 2)].
Proof.
  apply (processRawData_priority_of_segment scenarioA_shifted halves halves).
  vm_compute. reflexivity.
Defined.

(** ** Stored values and the random source *)

Lemma Math_round_within (q : Q) :
  (0 <= q <= 100)%Q ->
  exists z, Math_round (Fin q) = ofZ z /\ (0 <= z <= 100)%Z.
Proof.
  intros [H0 H100]. exists (Qfloor (q + (1 # 2))). split; [reflexivity|].
  split.
  - change 0%Z with (Qfloor (inject_Z 0)). apply Qfloor_resp_le.
    change (inject_Z 0) with (0 # 1)%Q. lra.
  - change 100%Z with (Qfloor (201 # 2)). apply Qfloor_resp_le. lra.
Qed.

Lemma processedNumbers_within (row headers : list jsstring)
  (g : RandomSource) :
  (forall k, (0 <= draws g k < 1)%Q) ->
  cellWithin 0 100 (volumeCell row headers) ->
  cellWithin 0 100 (affinityCell row headers) ->
  exists qv qa,
    fst (processedNumbers row headers g) = (Fin qv, Fin qa) /\
    (0 <= qv <= 100)%Q /\ (0 <= qa <= 100)%Q.
Proof.
  intros Hdraws Hv Ha.
  unfold cellWithin, usableCell, volumeCell, affinityCell in Hv, Ha.
  unfold processedNumbers, bind, ret.
  set (vc := cell row (cm_volume (identifyColumns headers))) in *.
  set (ac := cell row (cm_affinity (identifyColumns headers))) in *.
  assert (Hr : forall g0 : RandomSource, draws g0 = draws g ->
               (0 <= draws g0 (consumed g0) * 100 <= 100)%Q).
  { intros g0 E. rewrite E. specialize (Hdraws (consumed g0)). lra. }
  destruct (orRandom_cases vc g) as [[Tv E1]|[Tv E1]]; rewrite E1; clear E1;
  match goal with
  | |- context [orRandom ac ?g1] =>
      destruct (orRandom_cases ac g1) as [[Ta E2]|[Ta E2]];
      rewrite E2; clear E2
  end;
  match goal with
  | |- context [numberOrRandom ?n ?g2] =>
      destruct (numberOrRandom_cases n g2) as [[Pv E3]|[Pv E3]];
      rewrite E3; clear E3
  end;
  match goal with
  | |- context [numberOrRandom ?n ?g3] =>
      destruct (numberOrRandom_cases n g3) as [[Pa E4]|[Pa E4]];
      rewrite E4; clear E4
  end; cbn [fst snd parseFloat] in *;
  try (rewrite Tv, Pv in Hv; destruct (Hv eq_refl) as (qv & -> & Hqv));
  try (rewrite Ta, Pa in Ha; destruct (Ha eq_refl) as (qa & -> & Hqa));
  do 2 eexists; (split; [reflexivity|]); split;
  first [ assumption | apply Hr; reflexivity ].
Qed.

(** X10. When the draws lie in [0,1) and the volume and affinity cells of a
    row are either replaced by a draw or hold a number between 0 and 100,
    the stored volume and affinity are whole numbers between 0 and 100
    (100 included: a draw above 0.995 is rounded up to it). *)
Theorem processRow_stored_range (row headers : list jsstring) (n : nat)
  (g g' : RandomSource) (d : Doctor) :
  processRow row headers n g = (Some d, g') ->
  (forall k, (0 <= draws g k < 1)%Q) ->
  cellWithin 0 100 (volumeCell row headers) ->
  cellWithin 0 100 (affinityCell row headers) ->
  exists zv za,
    volume d = ofZ zv /\ affinity d = ofZ za /\
    (0 <= zv <= 100)%Z /\ (0 <= za <= 100)%Z.
Proof.
  intros Hrun Hdraws Hv Ha.
  destruct (processRow_Some _ _ _ _ _ _ Hrun)
    as (k & nm & _ & _ & _ & _ & _ & _ & _ & _ & _ & Hvol & Haff).
  destruct (processedNumbers_within row headers g Hdraws Hv Ha)
    as (qv & qa & E & Hqv & Hqa).
  rewrite E in Hvol, Haff. cbn [fst snd] in Hvol, Haff.
  destruct (Math_round_within qv Hqv) as (zv & Ev & Hzv).
  destruct (Math_round_within qa Hqa) as (za & Ea & Hza).
  exists zv, za. repeat split; try congruence; lia.
Qed.

Lemma processRow_stored_range_witness :
  exists zv za,
    ofZ 50 = ofZ zv /\ ofZ 50 = ofZ za /\
    (0 <= zv <= 100)%Z /\ (0 <= za <= 100)%Z.
Proof.
  apply (processRow_stored_range
           [str "1"; str "Dr. A"; str "0"; str "50"]
           [str "Id"; str "Nome"; str "Volume"; str "Afinidade"]
           2 halves (mkRandom (fun _ => (1 # 2)%Q) 1)
           (mkDoctor 2 (str "Dr. A") (str "outras") (str "conquistar")
              (ofZ 50) (ofZ 50) (str "strategic") (Some 2))).
  - vm_compute. reflexivity.
  - intros k. simpl. lra.
  - intros H. vm_compute in H. discriminate.
  - intros _. exists (50 # 1)%Q. split; [vm_compute; reflexivity | lra].
Defined.

Lemma processRow_complete (row headers : list jsstring) (n : nat) :
  usableCell (volumeCell row headers) = true ->
  usableCell (affinityCell row headers) = true ->
  forall g1 g2 : RandomSource,
    fst (processRow row headers n g1) = fst (processRow row headers n g2) /\
    snd (processRow row headers n g1) = g1.
Proof.
  unfold usableCell, volumeCell, affinityCell. intros Hv Ha g1 g2.
  apply andb_true_iff in Hv, Ha.
  destruct Hv as [Tv Pv]. destruct Ha as [Ta Pa].
  unfold processRow.
  destruct (notIndex _); [split; reflexivity|].
  destruct (cell row (cm_name _)) as [|nm|x]; try (split; reflexivity).
  destruct (_ || _); [split; reflexivity|].
  unfold orRandom, numberOrRandom, bind, ret.
  rewrite Tv, Ta. cbv beta iota. rewrite Pv, Pa. split; reflexivity.
Qed.

Lemma forEachRow_complete (headers : list jsstring)
  (rows : list (list jsstring)) :
  Forall (fun row => usableCell (volumeCell row headers)
                     && usableCell (affinityCell row headers) = true) rows ->
  forall (i : nat) (g1 g2 : RandomSource),
    fst (forEachRow rows headers i [] g1) =
    fst (forEachRow rows headers i [] g2) /\
    snd (forEachRow rows headers i [] g1) = g1.
Proof.
  induction 1 as [|row rest Hrow Hrest IH]; intros i g1 g2.
  - split; reflexivity.
  - apply andb_true_iff in Hrow. destruct Hrow as [Hv Ha].
    rewrite !forEachRow_cons.
    destruct (processRow_complete row headers (i + 2) Hv Ha g1 g2)
      as [E1 S1].
    destruct (processRow_complete row headers (i + 2) Hv Ha g2 g1)
      as [_ S2].
    destruct (processRow row headers (i + 2) g1) as [o1 h1].
    destruct (processRow row headers (i + 2) g2) as [o2 h2].
    simpl in E1, S1, S2. subst o2 h1 h2.
    destruct (IH (S i) g1 g2) as [E S]. cbn [fst snd].
    split; [now rewrite E | exact S].
Qed.

Lemma drawFreeCell_usable (v : value) :
  drawFreeCell v = true -> usableCell v = true.
Proof.
  unfold drawFreeCell, usableCell. intros H.
  apply andb_true_iff in H. destruct H as [-> H]. simpl.
  destruct (parseFloat v) as [| | |q]; try reflexivity; [discriminate|].
  simpl. apply Qle_bool_iff in H.
  destruct (Qeq_bool q 0) eqn:E; [|reflexivity].
  apply Qeq_bool_iff in E. rewrite E in H. exfalso.
  unfold minPositiveDouble, Qle in H. simpl in H. lia.
Qed.

(** X11. A sheet in which every data row has volume and affinity cells that
    are not empty and parse to an infinity or to a number of magnitude at
    least 2^-1074 (the smallest positive double, so that the parsed double
    is not zero) is ingested without any draw: the collection is the same
    for every random source, and the source is left untouched. *)
Theorem processRawData_without_draws (headers : list jsstring)
  (dataRows : list (list jsstring)) :
  Forall (fun row => drawFreeCell (volumeCell row headers)
                     && drawFreeCell (affinityCell row headers) = true)
         dataRows ->
  forall g1 g2 : RandomSource,
    fst (processRawData (headers :: dataRows) g1) =
    fst (processRawData (headers :: dataRows) g2) /\
    snd (processRawData (headers :: dataRows) g1) = g1.
Proof.
  intros Hfree g1 g2.
  assert (Hall : Forall (fun row => usableCell (volumeCell row headers)
                                    && usableCell (affinityCell row headers)
                                    = true) dataRows).
  { eapply Forall_impl; [|exact Hfree]. intros row H.
    apply andb_true_iff in H. destruct H as [Hv Ha].
    now rewrite (drawFreeCell_usable _ Hv), (drawFreeCell_usable _ Ha). }
  unfold processRawData.
  destruct dataRows as [|row rows]; [split; reflexivity|].
  unfold bind, ret.
  destruct (forEachRow_complete headers (row :: rows) Hall 0 g1 g2)
    as [E S].
  destruct (forEachRow (row :: rows) headers 0 [] g1) as [d1 h1].
  destruct (forEachRow (row :: rows) headers 0 [] g2) as [d2 h2].
  simpl in *. split; congruence.
Qed.

Lemma processRawData_without_draws_witness :
  fst (processRawData scenarioA_shifted halves) =
  fst (processRawData scenarioA_shifted (mkRandom (fun _ => 0%Q) 7)) /\
  snd (processRawData scenarioA_shifted halves) = halves.
Proof.
  apply (processRawData_without_draws
           [str "Id"; str "Nome"; str "Especialidade"; str "Volume";
            str "Afinidade"]
           [[str "1"; str "Dr. Teste"; str "Cardio"; str "85"; str "90"]]).
  constructor; [vm_compute; reflexivity | constructor].
Defined.

(** * Further properties of the dashboard *)

(** ** Loading into [medicalData] *)

(** X14. Whatever the loader does, [loadFromExcel] leaves [medicalData]
    loaded with a collection that is not empty: the collection of the
    loader when it has at least one Doctor, and the 12-entry sample of the
    dashboard otherwise (no loader, a rejected promise, an empty
    collection). *)
Theorem loadFromExcel_never_empty
  (ExcelLoader : option (Rand (result (list Doctor)))) (g : RandomSource) :
  let st := fst (MedicalData.loadFromExcel ExcelLoader g) in
  MedicalData.isLoaded st = true /\
  MedicalData.doctors st <> [] /\
  MedicalData.doctors st =
    match ExcelLoader with
    | Some loader =>
        match fst (loader g) with
        | Ok (d :: ds) => d :: ds
        | Ok [] | Throw _ => MedicalData.getFallbackData
        end
    | None => MedicalData.getFallbackData
    end /\
  List.length MedicalData.getFallbackData = 12.
Proof.
  unfold MedicalData.loadFromExcel.
  destruct ExcelLoader as [loader|]; cbn [fst ret].
  - unfold bind, ret. destruct (loader g) as [[[|d ds]|m] g1];
      cbn [fst]; repeat split; discriminate.
  - repeat split; discriminate.
Qed.

Section DashboardLoading.

Variables ArrayBuffer Worksheet : Type.
Variable fetch : jsstring -> result (Response ArrayBuffer).
Variable XLSX : option (XLSXLibrary ArrayBuffer Worksheet).
Variable CONFIG : Config.

(** X13. The two samples.  When a stage of the loader throws, the dashboard
    shows the 3-entry sample of the loader and not its own; when the sheet
    is read but gives no Doctor, the loader returns the empty collection
    instead of its sample, and the dashboard then shows its own 12-entry
    sample. *)
Theorem loadFromExcel_samples (g : RandomSource) :
  (forall message,
      loadStages fetch XLSX CONFIG None = Throw message ->
      MedicalData.loadFromExcel (Some (publicLoadData fetch XLSX CONFIG)) g
      = (MedicalData.mkState MainLoader.getFallbackData true, g)) /\
  (forall rawData g',
      loadStages fetch XLSX CONFIG None = Ok rawData ->
      processRawData rawData g = (Ok [], g') ->
      loadData fetch XLSX CONFIG None g = ([], g') /\
      MedicalData.loadFromExcel (Some (publicLoadData fetch XLSX CONFIG)) g
      = (MedicalData.mkState MedicalData.getFallbackData true, g')).
Proof.
  split.
  - intros message H.
    unfold MedicalData.loadFromExcel, publicLoadData, loadData, tryLoad,
      bind, ret.
    rewrite H. reflexivity.
  - intros rawData g' H Hrun.
    unfold MedicalData.loadFromExcel, publicLoadData, loadData, tryLoad,
      bind, ret.
    rewrite H, Hrun. split; reflexivity.
Qed.

End DashboardLoading.

Lemma loadFromExcel_samples_witness :
  MedicalData.loadFromExcel
    (Some (publicLoadData sampleFetch (Some brokenXLSX) sampleConfig)) halves
  = (MedicalData.mkState MainLoader.getFallbackData true, halves) /\
  MedicalData.loadFromExcel
    (Some (publicLoadData sampleFetch (Some (sampleXLSX scenarioA))
             sampleConfig)) halves
  = (MedicalData.mkState MedicalData.getFallbackData true, halves).
Proof.
  split.
  - apply (proj1 (loadFromExcel_samples unit (list (list jsstring))
                    sampleFetch (Some brokenXLSX) sampleConfig halves)
             (str "Unsupported file")).
    vm_compute. reflexivity.
  - apply (proj2 (loadFromExcel_samples unit (list (list jsstring))
                    sampleFetch (Some (sampleXLSX scenarioA)) sampleConfig
                    halves) scenarioA halves).
    + vm_compute. reflexivity.
    + vm_compute. reflexivity.
Defined.

(** ** The filter engine as a projection *)

Import FiltersModule.

Lemma filter_idem {A} (p : A -> bool) (l : list A) :
  filter p (filter p l) = filter p l.
Proof.
  induction l as [|x l IH]; simpl; [reflexivity|].
  destruct (p x) eqn:E; simpl; [|exact IH]. now rewrite E, IH.
Qed.

Lemma filter_none {A} (p : A -> bool) (l : list A) :
  (forall x, p x = false) -> filter p l = [].
Proof.
  intros H. induction l as [|x l IH]; simpl; [reflexivity|].
  now rewrite H.
Qed.

Lemma filter_same_length {A} (p : A -> bool) (l : list A) :
  List.length (filter p l) = List.length l -> filter p l = l.
Proof.
  induction l as [|x l IH]; simpl; [reflexivity|].
  destruct (p x); simpl; intros H.
  - f_equal. apply IH. lia.
  - pose proof (filter_shorter p l). lia.
Qed.

Lemma filter_all {A} (p : A -> bool) (l : list A) :
  (forall x, In x l -> p x = true) -> filter p l = l.
Proof.
  induction l as [|x l IH]; simpl; intros H; [reflexivity|].
  rewrite (H x) by now left. f_equal. apply IH. intros y Hy.
  apply H. now right.
Qed.

Lemma passes_thresholds (f : FilterState) (d : Doctor) :
  passes f d = true ->
  geb (volume d) (f_volume_min f) = true /\
  geb (affinity d) (f_affinity_min f) = true.
Proof.
  unfold passes. rewrite !andb_true_iff. tauto.
Qed.

(** X15. [applyFilters] is a projection of the collection: filtering the
    result again with the same state changes nothing, filtering two
    collections put end to end is filtering each, and every Doctor of the
    result is a Doctor of the collection whose volume and affinity reach
    the two minimums. *)
Theorem applyFilters_projection (doctors : list Doctor) (f : FilterState) :
  applyFilters (applyFilters doctors f) f = applyFilters doctors f /\
  (forall more,
      applyFilters (doctors ++ more) f =
      applyFilters doctors f ++ applyFilters more f) /\
  (forall d,
      In d (applyFilters doctors f) ->
      In d doctors /\
      geb (volume d) (f_volume_min f) = true /\
      geb (affinity d) (f_affinity_min f) = true).
Proof.
  split; [|split].
  - rewrite !applyFilters_passes. apply filter_idem.
  - intros more. rewrite !applyFilters_passes. apply filter_app.
  - intros d. rewrite applyFilters_passes, filter_In.
    intros [Hin Hp]. split; [exact Hin|]. now apply passes_thresholds.
Qed.

Lemma applyFilters_projection_witness :
  In (mkDoctor 3 (str "Dr. Pedro Oliveira") (str "ortopedia")
        (str "incentivar") (ofZ 45) (ofZ 88) (str "new-opportunities") None)
     MainLoader.getFallbackData /\
  geb (ofZ 45) (ofZ 0) = true /\ geb (ofZ 88) (ofZ 0) = true.
Proof.
  apply (proj2 (proj2 (applyFilters_projection MainLoader.getFallbackData
                         clearedFilters))
           (mkDoctor 3 (str "Dr. Pedro Oliveira") (str "ortopedia")
              (str "incentivar") (ofZ 45) (ofZ 88)
              (str "new-opportunities") None)).
  vm_compute. right. right. left. reflexivity.
Defined.

Lemma geb_NaN (x : number) : geb x NaN = false.
Proof. destruct x; reflexivity. Qed.

(** X16. A minimum that is [NaN] (what [parseInt] gives for a slider value
    that is not a number) hides every Doctor, and [updateFilterCount] does
    not count it as an active filter. *)
Theorem NaN_minimum_hides_everything (doctors : list Doctor)
  (f : FilterState) :
  applyFilters doctors (updateVolumeRange NaN f) = [] /\
  applyFilters doctors (updateAffinityRange NaN f) = [] /\
  updateFilterCount (updateVolumeRange NaN f) =
    updateFilterCount (updateVolumeRange (ofZ 0) f) /\
  updateFilterCount (updateAffinityRange NaN f) =
    updateFilterCount (updateAffinityRange (ofZ 0) f).
Proof.
  repeat split.
  - rewrite applyFilters_passes. apply filter_none. intros d.
    unfold passes, updateVolumeRange. cbn [f_volume_min].
    rewrite geb_NaN. now rewrite !andb_false_r.
  - rewrite applyFilters_passes. apply filter_none. intros d.
    unfold passes, updateAffinityRange. cbn [f_affinity_min].
    rewrite geb_NaN. now rewrite !andb_false_r.
Qed.

(** X20. [clearAllFilters] with both sliders in the page does not show every
    Doctor: it leaves both minimums at 50, so that exactly the Doctors with
    volume and affinity of at least 50 remain and two filters are counted
    as active; without the sliders the minimums are 0 and none is
    counted. *)
Theorem clearAllFilters_leaves_minimums (doctors : list Doctor) :
  applyFilters doctors (clearAllFilters true true) =
    filter (fun d => geb (volume d) (ofZ 50) && geb (affinity d) (ofZ 50))
           doctors /\
  updateFilterCount (clearAllFilters true true) = 2 /\
  applyFilters doctors (clearAllFilters false false) =
    filter (fun d => geb (volume d) (ofZ 0) && geb (affinity d) (ofZ 0))
           doctors /\
  updateFilterCount (clearAllFilters false false) = 0.
Proof.
  split; [|split; [reflexivity|split; [|reflexivity]]];
    rewrite applyFilters_passes; apply filter_ext; intros d;
    unfold passes; cbn; now rewrite andb_true_r.
Qed.

(** ** The segment selection *)

Lemma without_In (x s : jsstring) (l : list jsstring) :
  In x (without s l) <-> In x l /\ x <> s.
Proof.
  unfold without. rewrite filter_In. split; intros [H1 H2]; split; auto.
  - intros E. subst. rewrite (proj2 (jsstring_eqb_eq s s) eq_refl) in H2.
    discriminate.
  - destruct (JsString.eqb x s) eqn:E; [|reflexivity].
    apply jsstring_eqb_eq in E. contradiction.
Qed.

Lemma pushIfAbsent_In (x s : jsstring) (l : list jsstring) :
  In x (pushIfAbsent s l) <-> In x l \/ x = s.
Proof.
  unfold pushIfAbsent. destruct (arrayIncludes l s) eqn:E.
  - apply arrayIncludes_In in E. split; [auto|]. intros [H| ->]; auto.
  - rewrite in_app_iff. simpl. intuition.
Qed.

Lemma NoDup_snoc {A} (l : list A) (x : A) :
  NoDup l -> ~ In x l -> NoDup (l ++ [x]).
Proof.
  induction 1 as [|y l Hy Hl IH]; simpl; intros Hx.
  - constructor; [auto | constructor].
  - constructor.
    + rewrite in_app_iff. simpl. intuition.
    + apply IH. intuition.
Qed.

Lemma pushIfAbsent_NoDup (s : jsstring) (l : list jsstring) :
  NoDup l -> NoDup (pushIfAbsent s l).
Proof.
  intros H. unfold pushIfAbsent. destruct (arrayIncludes l s) eqn:E;
    [exact H|].
  apply NoDup_snoc; [exact H|]. intros Hin.
  apply arrayIncludes_In in Hin. congruence.
Qed.

Lemma without_absent (s : jsstring) (l : list jsstring) :
  ~ In s l -> without s l = l.
Proof.
  intros H. induction l as [|x l IH]; simpl; [reflexivity|].
  destruct (JsString.eqb x s) eqn:E.
  - apply jsstring_eqb_eq in E. subst. exfalso. apply H. now left.
  - simpl. f_equal. apply IH. intros Hin. apply H. now right.
Qed.

Lemma without_pushIfAbsent (s : jsstring) (l : list jsstring) :
  ~ In s l -> without s (pushIfAbsent s l) = l.
Proof.
  intros H. unfold pushIfAbsent. destruct (arrayIncludes l s) eqn:E.
  - apply arrayIncludes_In in E. contradiction.
  - unfold without. rewrite filter_app. fold (without s l).
    rewrite (without_absent s l H). simpl.
    rewrite (proj2 (jsstring_eqb_eq s s) eq_refl). simpl.
    apply app_nil_r.
Qed.

(** X18. [updateSegmentFilter] keeps the selection free of repetitions;
    checking a segment puts it in the selection and unchecking takes it
    out, each without touching the other segments; checking a segment that
    was not selected and unchecking it again gives back the filter state as
    it was. *)
Theorem updateSegmentFilter_selection (seg : jsstring) (f : FilterState) :
  (forall isChecked,
      NoDup (f_segments f) ->
      NoDup (f_segments (updateSegmentFilter seg isChecked f))) /\
  (forall isChecked x,
      In x (f_segments (updateSegmentFilter seg isChecked f)) <->
      (if isChecked then In x (f_segments f) \/ x = seg
       else In x (f_segments f) /\ x <> seg)) /\
  (~ In seg (f_segments f) ->
   updateSegmentFilter seg false (updateSegmentFilter seg true f) = f).
Proof.
  split; [|split].
  - intros [|] H; cbn [updateSegmentFilter f_segments].
    + now apply pushIfAbsent_NoDup.
    + now apply NoDup_filter.
  - intros [|] x; cbn [updateSegmentFilter f_segments].
    + apply pushIfAbsent_In.
    + apply without_In.
  - intros H. destruct f as [se sg sp vm am qf].
    cbn [f_segments] in H. unfold updateSegmentFilter.
    cbn [f_search f_segments f_specialty f_volume_min f_affinity_min
         f_quickFilters].
    now rewrite without_pushIfAbsent.
Qed.

Lemma updateSegmentFilter_selection_witness :
  updateSegmentFilter (str "blindar") false
    (updateSegmentFilter (str "blindar") true clearedFilters)
  = clearedFilters.
Proof.
  apply (proj2 (proj2 (updateSegmentFilter_selection (str "blindar")
                         clearedFilters))).
  simpl. tauto.
Defined.

Lemma passes_segments (se : jsstring) (segs : list jsstring)
  (sp : jsstring) (vm am : number) (qf : list jsstring) (d : Doctor) :
  passes (mkFilterState se segs sp vm am qf) d =
  passes (mkFilterState se [] sp vm am qf) d
  && (if nonEmpty segs then arrayIncludes segs (segment d) else true).
Proof.
  unfold passes.
  cbn [f_search f_segments f_specialty f_volume_min f_affinity_min
       f_quickFilters].
  replace (nonEmpty (@nil jsstring)) with false by reflexivity.
  destruct (if nonEmpty se then _ else true);
  destruct (if nonEmpty segs then _ else true);
  destruct (if nonEmpty sp then _ else true);
  destruct (geb (volume d) vm);
  destruct (geb (affinity d) am);
  destruct (if nonEmpty qf then _ else true); reflexivity.
Qed.

(** X17. An empty selection of segments restricts nothing.  Checking the
    first segment keeps, of the Doctors shown, those of that segment;
    checking a further segment never hides a Doctor that was shown. *)
Theorem updateSegmentFilter_result (doctors : list Doctor) (seg : jsstring)
  (f : FilterState) :
  (f_segments f = [] ->
   applyFilters doctors (updateSegmentFilter seg true f) =
   filter (fun d => JsString.eqb seg (segment d))
          (applyFilters doctors f)) /\
  (f_segments f <> [] ->
   incl (applyFilters doctors f)
        (applyFilters doctors (updateSegmentFilter seg true f))).
Proof.
  destruct f as [se sg sp vm am qf]. unfold updateSegmentFilter.
  cbn [f_search f_segments f_specialty f_volume_min f_affinity_min
       f_quickFilters].
  split.
  - intros ->. rewrite !applyFilters_passes, filter_filter_andb.
    apply filter_ext. intros d.
    replace (pushIfAbsent seg []) with [seg] by reflexivity.
    rewrite passes_segments.
    replace (nonEmpty [seg]) with true by reflexivity.
    unfold arrayIncludes. simpl existsb. now rewrite orb_false_r.
  - intros Hne d. rewrite !applyFilters_passes, !filter_In.
    intros [Hin Hp]. split; [exact Hin|].
    rewrite passes_segments. rewrite passes_segments in Hp.
    apply andb_true_iff in Hp. destruct Hp as [Hp Hs].
    rewrite Hp. simpl andb.
    destruct sg as [|s0 sg]; [contradiction|].
    replace (nonEmpty (s0 :: sg)) with true in Hs by reflexivity.
    assert (Hin' : In (segment d) (pushIfAbsent seg (s0 :: sg))).
    { apply pushIfAbsent_In. left. now apply arrayIncludes_In. }
    destruct (pushIfAbsent seg (s0 :: sg)) as [|p ps] eqn:E;
      [destruct Hin'|].
    replace (nonEmpty (p :: ps)) with true by reflexivity.
    now apply arrayIncludes_In.
Qed.

Lemma updateSegmentFilter_result_witness :
  applyFilters MainLoader.getFallbackData
    (updateSegmentFilter (str "blindar") true clearedFilters) =
  filter (fun d => JsString.eqb (str "blindar") (segment d))
         (applyFilters MainLoader.getFallbackData clearedFilters).
Proof.
  apply (proj1 (updateSegmentFilter_result MainLoader.getFallbackData
                  (str "blindar") clearedFilters)).
  reflexivity.
Defined.

(** ** Quick filters *)

(** X19. After [toggleQuickFilter] the button and the list agree: the
    button is active exactly when the tag is in the list, whatever their
    states before; the other tags are untouched, the list stays free of
    repetitions, and a second toggle gives the button its first state
    back. *)
Theorem toggleQuickFilter_sync (filterType : jsstring) (isActive : bool)
  (f : FilterState) :
  let f1 := fst (toggleQuickFilter filterType isActive f) in
  let active1 := snd (toggleQuickFilter filterType isActive f) in
  active1 = arrayIncludes (f_quickFilters f1) filterType /\
  (forall x, x <> filterType ->
             (In x (f_quickFilters f1) <-> In x (f_quickFilters f))) /\
  (NoDup (f_quickFilters f) -> NoDup (f_quickFilters f1)) /\
  snd (toggleQuickFilter filterType active1 f1) = isActive.
Proof.
  unfold toggleQuickFilter.
  cbn [fst snd f_search f_segments f_specialty f_volume_min f_affinity_min
       f_quickFilters].
  split; [|split; [|split]].
  - destruct isActive; cbn [negb].
    + symmetry. destruct (arrayIncludes _ filterType) eqn:E; [|reflexivity].
      apply arrayIncludes_In, without_In in E. now destruct E.
    + symmetry. apply arrayIncludes_In, pushIfAbsent_In. now right.
  - intros x Hx. destruct isActive.
    + rewrite without_In. tauto.
    + rewrite pushIfAbsent_In. tauto.
  - intros H. destruct isActive.
    + now apply NoDup_filter.
    + now apply pushIfAbsent_NoDup.
  - apply negb_involutive.
Qed.

Lemma toggleQuickFilter_sync_witness :
  NoDup (f_quickFilters
           (fst (toggleQuickFilter (str "high") false clearedFilters))).
Proof.
  apply (toggleQuickFilter_sync (str "high") false clearedFilters).
  constructor.
Defined.

(** ** The four groups and the summary *)

Lemma segment_tests (s : jsstring) :
  let b1 := JsString.eqb s (str "blindar") in
  let b2 := JsString.eqb s (str "incentivar") in
  let b3 := JsString.eqb s (str "avaliar") in
  let b4 := JsString.eqb s (str "conquistar") in
  (b1, b2, b3, b4) = (true, false, false, false) \/
  (b1, b2, b3, b4) = (false, true, false, false) \/
  (b1, b2, b3, b4) = (false, false, true, false) \/
  (b1, b2, b3, b4) = (false, false, false, true) \/
  (b1, b2, b3, b4) = (false, false, false, false).
Proof.
  cbv zeta.
  destruct (JsString.eqb s (str "blindar")) eqn:E1.
  { apply jsstring_eqb_eq in E1. subst s. left. reflexivity. }
  destruct (JsString.eqb s (str "incentivar")) eqn:E2.
  { apply jsstring_eqb_eq in E2. subst s. right. left. reflexivity. }
  destruct (JsString.eqb s (str "avaliar")) eqn:E3.
  { apply jsstring_eqb_eq in E3. subst s. do 2 right. left. reflexivity. }
  destruct (JsString.eqb s (str "conquistar")) eqn:E4; auto 6.
Qed.

Lemma groupsTotal_valid (filteredDoctors : list Doctor) :
  groupsTotal (segmentsOf filteredDoctors) =
  List.length (filter validSegment filteredDoctors).
Proof.
  unfold groupsTotal, segmentsOf.
  cbn [g_blindar g_incentivar g_avaliar g_conquistar].
  induction filteredDoctors as [|d l IH]; [reflexivity|].
  cbn [filter]. unfold validSegment at 1.
  destruct (segment_tests (segment d)) as [H|[H|[H|[H|H]]]];
    cbv zeta in H; injection H as -> -> -> ->;
    cbn [orb List.length]; lia.
Qed.

Lemma segmentKeys_valid (d : Doctor) :
  In (segment d) segmentKeys -> validSegment d = true.
Proof.
  unfold segmentKeys, validSegment.
  intros [<-|[<-|[<-|[<-|[]]]]]; reflexivity.
Qed.

Lemma group_In (filteredDoctors : list Doctor) (key : jsstring)
  (d : Doctor) :
  In d (filter (fun x => JsString.eqb (segment x) key) filteredDoctors) <->
  In d filteredDoctors /\ segment d = key.
Proof. rewrite filter_In. now rewrite jsstring_eqb_eq. Qed.

(** X21. Each of the four groups of [updateUI] holds exactly the filtered
    Doctors of its own segment: a Doctor is in the blindar group iff it is a
    filtered Doctor whose segment is blindar, and likewise for incentivar,
    avaliar and conquistar, so that a Doctor with any other segment is in no
    group; the sizes of the groups add up to the number of filtered Doctors
    with one of the four segments, which for a collection made by
    [processRawData], whatever the filter state, is the size of the filtered
    result. *)
Theorem updateUI_groups :
  (forall (filteredDoctors : list Doctor) (d : Doctor),
      let G := segmentsOf filteredDoctors in
      (In d (g_blindar G) <->
       In d filteredDoctors /\ segment d = str "blindar") /\
      (In d (g_incentivar G) <->
       In d filteredDoctors /\ segment d = str "incentivar") /\
      (In d (g_avaliar G) <->
       In d filteredDoctors /\ segment d = str "avaliar") /\
      (In d (g_conquistar G) <->
       In d filteredDoctors /\ segment d = str "conquistar")) /\
  (forall filteredDoctors : list Doctor,
      groupsTotal (segmentsOf filteredDoctors) =
      List.length (filter validSegment filteredDoctors)) /\
  (forall (rawData : list (list jsstring)) (g g' : RandomSource)
          (doctors : list Doctor) (f : FilterState),
      processRawData rawData g = (Ok doctors, g') ->
      groupsTotal (segmentsOf (applyFilters doctors f)) =
      List.length (applyFilters doctors f)).
Proof.
  split; [|split; [exact groupsTotal_valid|]].
  - intros filteredDoctors d G. subst G. unfold segmentsOf.
    cbn [g_blindar g_incentivar g_avaliar g_conquistar].
    split; [apply group_In | split; [apply group_In | split; apply group_In]].
  - intros rawData g g' doctors f Hrun.
    rewrite groupsTotal_valid. f_equal.
    apply filter_all. intros d Hd.
    apply segmentKeys_valid.
    rewrite applyFilters_passes, filter_In in Hd. destruct Hd as [Hd _].
    now apply (processRawData_segments rawData g g' doctors).
Qed.

Lemma updateUI_groups_witness :
  groupsTotal
    (segmentsOf
       (applyFilters
          [mkDoctor 2 (str "Dr. Teste") (str "cardiologia") (str "blindar")
             (ofZ 85) (ofZ 90) (str "strategic") (Some 2)]
          clearedFilters)) =
  List.length
    (applyFilters
       [mkDoctor 2 (str "Dr. Teste") (str "cardiologia") (str "blindar")
          (ofZ 85) (ofZ 90) (str "strategic") (Some 2)]
       clearedFilters).
Proof.
  apply (proj2 (proj2 updateUI_groups) scenarioA_shifted halves halves).
  vm_compute. reflexivity.
Defined.

(** X22. [updateResultsSummary] announces that all the Doctors are shown
    exactly when the filters removed none of them. *)
Theorem updateResultsSummary_all (doctors : list Doctor) (f : FilterState) :
  updateResultsSummary doctors (applyFilters doctors f) =
    str "Mostrando todos os m" ++ [233%N] ++ str "dicos" <->
  applyFilters doctors f = doctors.
Proof.
  unfold updateResultsSummary. rewrite applyFilters_passes.
  destruct (Nat.eqb (List.length (filter (passes f) doctors))
                    (List.length doctors)) eqn:E.
  - apply Nat.eqb_eq in E. split; [|reflexivity].
    intros _. now apply filter_same_length.
  - apply Nat.eqb_neq in E. split.
    + intros H. vm_compute in H. discriminate.
    + intros H. rewrite H in E. now exfalso.
Qed.

(** ** The queries of [medicalData] *)

Lemma includes_empty (s : jsstring) : includes s [] = true.
Proof. destruct s; reflexivity. Qed.

Lemma number_leb_Fin (a b : Q) :
  number_leb (Fin a) (Fin b) = true <-> (a <= b)%Q.
Proof.
  unfold number_leb; simpl. rewrite Qle_alt.
  destruct (Qcompare a b); split; congruence.
Qed.

Lemma inverted_range (v min max : number) :
  ltb max min = true -> geb v min && number_leb v max = false.
Proof.
  destruct v as [| | |a], min as [| | |b], max as [| | |c]; intros H;
    try reflexivity; try (unfold ltb in H; simpl in H; discriminate H);
    try (unfold number_leb; simpl; apply andb_false_r).
  apply ltb_Fin in H.
  destruct (geb (Fin a) (Fin b)) eqn:E1; [|reflexivity].
  destruct (number_leb (Fin a) (Fin c)) eqn:E2; [|reflexivity].
  apply geb_Fin in E1. apply number_leb_Fin in E2. lra.
Qed.

(** X23. [medicalData.search] with the empty query returns the whole
    collection, and the two range queries return nothing when the maximum
    is below the minimum. *)
Theorem medicalData_queries (st : MedicalData.State) :
  MedicalData.search st [] = MedicalData.doctors st /\
  (forall min max,
      ltb max min = true ->
      MedicalData.filterByVolumeRange st min max = [] /\
      MedicalData.filterByAffinityRange st min max = []).
Proof.
  split.
  - unfold MedicalData.search. apply filter_all. intros d _.
    apply includes_empty.
  - intros min max H. split; apply filter_none; intros d;
      now apply inverted_range.
Qed.

Lemma medicalData_queries_witness :
  MedicalData.filterByVolumeRange
    (MedicalData.mkState MedicalData.getFallbackData true)
    (ofZ 80) (ofZ 40) = [].
Proof.
  apply (proj2 (medicalData_queries
                  (MedicalData.mkState MedicalData.getFallbackData true))
           (ofZ 80) (ofZ 40)).
  reflexivity.
Defined.

(** ** The search text *)

Lemma isWhiteSpace_true (c : N) :
  isWhiteSpace c = true ->
  (9 <= c <= 13 \/ c = 32 \/ c = 160 \/ c = 5760 \/ 8192 <= c <= 8202 \/
   c = 8232 \/ c = 8233 \/ c = 8239 \/ c = 8287 \/ c = 12288 \/
   c = 65279)%N.
Proof.
  unfold isWhiteSpace.
  rewrite !orb_true_iff, !andb_true_iff, !N.leb_le, !N.eqb_eq. tauto.
Qed.

Lemma lowerUnit_cases (c : N) :
  (lowerUnit c = c \/
   lowerUnit c = c + 32 /\ (65 <= c <= 90 \/ 192 <= c <= 222))%N.
Proof.
  unfold lowerUnit.
  destruct ((65 <=? c) && (c <=? 90))%N eqn:E1.
  - apply andb_true_iff in E1. rewrite !N.leb_le in E1. right. lia.
  - destruct ((192 <=? c) && (c <=? 222) && negb (c =? 215))%N eqn:E2.
    + rewrite !andb_true_iff, !N.leb_le in E2. right. lia.
    + now left.
Qed.

Lemma isWhiteSpace_lowerUnit (c : N) :
  isWhiteSpace (lowerUnit c) = isWhiteSpace c.
Proof.
  destruct (lowerUnit_cases c) as [->|[-> Hc]]; [reflexivity|].
  destruct (isWhiteSpace (c + 32)) eqn:E1.
  { apply isWhiteSpace_true in E1. lia. }
  destruct (isWhiteSpace c) eqn:E2; [|reflexivity].
  apply isWhiteSpace_true in E2. lia.
Qed.

Lemma lowerUnit_idem (c : N) : lowerUnit (lowerUnit c) = lowerUnit c.
Proof.
  destruct (lowerUnit_cases c) as [H|[-> Hc]]; [now rewrite !H|].
  destruct (lowerUnit_cases (c + 32)) as [H|[_ H]]; [exact H | lia].
Qed.

Lemma toLowerCase_idem (s : jsstring) :
  toLowerCase (toLowerCase s) = toLowerCase s.
Proof.
  unfold toLowerCase. rewrite map_map. apply map_ext, lowerUnit_idem.
Qed.

Lemma trimStart_toLowerCase (s : jsstring) :
  trimStart (toLowerCase s) = toLowerCase (trimStart s).
Proof.
  induction s as [|c t IH]; simpl; [reflexivity|].
  rewrite isWhiteSpace_lowerUnit.
  destruct (isWhiteSpace c); [exact IH | reflexivity].
Qed.

Lemma trim_toLowerCase (s : jsstring) :
  trim (toLowerCase s) = toLowerCase (trim s).
Proof.
  unfold trim, trimEnd. rewrite trimStart_toLowerCase.
  unfold toLowerCase at 1. rewrite <- map_rev.
  fold (toLowerCase (rev (trimStart s))).
  rewrite trimStart_toLowerCase. unfold toLowerCase. now rewrite map_rev.
Qed.

(** X24. [updateSearchFilter] stores the query trimmed, so that a query of
    white space only restricts nothing; and the search does not depend on
    the letter case of the query. *)
Theorem updateSearchFilter_query (doctors : list Doctor) (query : jsstring)
  (f : FilterState) :
  f_search (updateSearchFilter query f) = trim query /\
  (trim query = [] ->
   applyFilters doctors (updateSearchFilter query f) =
   applyFilters doctors (updateSearchFilter [] f)) /\
  applyFilters doctors (updateSearchFilter (toLowerCase query) f) =
  applyFilters doctors (updateSearchFilter query f).
Proof.
  split; [reflexivity|]. split.
  - intros H. unfold updateSearchFilter. now rewrite H.
  - rewrite !applyFilters_passes. apply filter_ext. intros d.
    unfold passes, updateSearchFilter.
    cbn [f_search f_segments f_specialty f_volume_min f_affinity_min
         f_quickFilters].
    rewrite trim_toLowerCase, toLowerCase_idem.
    unfold nonEmpty, toLowerCase at 1. now rewrite length_map.
Qed.

Lemma updateSearchFilter_query_witness :
  applyFilters MainLoader.getFallbackData
    (updateSearchFilter (str "   ") clearedFilters) =
  applyFilters MainLoader.getFallbackData
    (updateSearchFilter [] clearedFilters).
Proof.
  apply (proj1 (proj2 (updateSearchFilter_query MainLoader.getFallbackData
                         (str "   ") clearedFilters))).
  reflexivity.
Defined.

(** * Further properties of the loader, continued *)

(** ** Arguments that are not numbers *)

Lemma or_zero_falsy (n : number) :
  JsNumber.truthy n = false -> JsNumber.or n (ofZ 0) = ofZ 0.
Proof. unfold JsNumber.or. now intros ->. Qed.

(** X25. [parseSegment] and [parsePriority] read each argument through
    [parseFloat]: a numeric string counts as its number, and an argument
    that is missing, not numeric or zero counts as 0, so that two missing
    arguments give conquistar and, outside blindar, new-opportunities. *)
Theorem classifier_arguments (v a : value) (seg : jsstring) :
  parseSegment v a =
    parseSegment (VNumber (parseFloat v)) (VNumber (parseFloat a)) /\
  parsePriority v a seg =
    parsePriority (VNumber (parseFloat v)) (VNumber (parseFloat a)) seg /\
  (JsNumber.truthy (parseFloat v) = false ->
   parseSegment v a = parseSegment (VNumber (ofZ 0)) a /\
   parsePriority v a seg = parsePriority (VNumber (ofZ 0)) a seg) /\
  (JsNumber.truthy (parseFloat a) = false ->
   parseSegment v a = parseSegment v (VNumber (ofZ 0)) /\
   parsePriority v a seg = parsePriority v (VNumber (ofZ 0)) seg) /\
  parseSegment VUndefined VUndefined = str "conquistar" /\
  (seg <> str "blindar" ->
   parsePriority VUndefined VUndefined seg = str "new-opportunities").
Proof.
  split; [reflexivity|]. split; [reflexivity|].
  split; [|split; [|split]].
  - intros H. unfold parseSegment, parsePriority.
    rewrite (or_zero_falsy _ H). split; reflexivity.
  - intros H. unfold parseSegment, parsePriority.
    rewrite (or_zero_falsy _ H). split; reflexivity.
  - reflexivity.
  - intros H. unfold parsePriority.
    destruct (JsString.eqb seg (str "blindar")) eqn:E; [|reflexivity].
    apply jsstring_eqb_eq in E. contradiction.
Qed.

Lemma classifier_arguments_witness :
  parseSegment (VString (str "abc")) (VString (str "90")) =
  parseSegment (VNumber (ofZ 0)) (VString (str "90")).
Proof.
  apply (classifier_arguments (VString (str "abc")) (VString (str "90"))
           (str "avaliar")).
  reflexivity.
Defined.

(** ** The stages before the record building *)

Section Stages.

Variables ArrayBuffer Worksheet : Type.
Variable fetch : jsstring -> result (Response ArrayBuffer).
Variable XLSX : option (XLSXLibrary ArrayBuffer Worksheet).
Variable CONFIG : Config.

(** X26. The stages of [loadData] before the record building give a grid
    exactly when every one of them succeeds: the file given (or, for no or
    an empty path, the configured one) is fetched with a success status and
    its body read, the library is present and reads the body, the
    configured sheet (or, for no or an empty name, the first sheet) is in
    the workbook, and its conversion succeeds.  Any other course throws. *)
Theorem loadStages_succeed (filePath : option jsstring)
  (rawData : list (list jsstring)) :
  loadStages fetch XLSX CONFIG filePath = Ok rawData <->
  exists response buffer lib workbook worksheet,
    fetch (keyOf (orString filePath (Some (excelFilePath CONFIG))))
      = Ok response /\
    ok response = true /\
    arrayBuffer response = Ok buffer /\
    XLSX = Some lib /\
    read lib buffer = Ok workbook /\
    sheetOf workbook
      (orString (sheetName CONFIG) (nth_error (SheetNames workbook) 0))
      = Some worksheet /\
    sheet_to_json lib worksheet = Ok rawData.
Proof.
  unfold loadStages, loadExcelFile, parseWorkbook, extractSheetData,
    bindResult.
  split.
  - destruct (fetch _) as [response|m]; [|discriminate].
    destruct (ok response) eqn:Eok; [|discriminate]. cbn [negb].
    destruct (arrayBuffer response) as [buffer|m] eqn:Eb; [|discriminate].
    destruct XLSX as [lib|]; [|discriminate].
    destruct (read lib buffer) as [workbook|m] eqn:Er; [|discriminate].
    destruct (sheetOf workbook _) as [worksheet|] eqn:Es; [|discriminate].
    intros H. exists response, buffer, lib, workbook, worksheet.
    repeat split; auto.
  - intros (response & buffer & lib & workbook & worksheet
            & -> & -> & -> & -> & Er & Es & Hj).
    cbn [negb]. rewrite Er, Es. exact Hj.
Qed.

End Stages.

(** * Further properties of the dashboard, continued *)

Lemma processRawData_priorities (rawData : list (list jsstring))
  (g g' : RandomSource) (doctors : list Doctor) (d : Doctor) :
  processRawData rawData g = (Ok doctors, g') ->
  In d doctors -> In (priority d) priorityKeys.
Proof.
  intros Hrun Hin.
  destruct (processRawData_In _ _ _ _ _ Hrun Hin)
    as (headers & dataRows & row & n & g0 & _ & _ & Hp).
  destruct (processRow row headers n g0) as [o g1] eqn:E.
  simpl in Hp. subst o.
  destruct (processRow_Some _ _ _ _ _ _ E)
    as (k & nm & _ & _ & _ & _ & _ & _ & _ & _ & Hpri & _).
  rewrite Hpri. unfold priorityKeys.
  destruct (parsePriority_values
              (VNumber (fst (fst (processedNumbers row headers g0))))
              (VNumber (snd (fst (processedNumbers row headers g0))))
              (segment d)) as [H|[H|H]]; rewrite H; simpl; auto.
Qed.

Lemma highPriority_complement (l : list Doctor) :
  (forall d, In d l -> In (priority d) priorityKeys) ->
  highPriority l +
  List.length (filter (fun d => JsString.eqb (priority d) (str "strategic"))
                      l)
  = List.length l.
Proof.
  unfold highPriority.
  induction l as [|d l IH]; intros H; [reflexivity|].
  assert (IH' := IH (fun x Hx => H x (or_intror Hx))).
  cbn [filter].
  destruct (H d (or_introl eq_refl)) as [E|[E|[E|[]]]]; rewrite <- E;
    cbn [List.length] in *; simpl JsString.eqb; cbn [orb List.length]; lia.
Qed.

(** X27. For a collection made by [processRawData], whatever the filter
    state, the opportunities tile of [updateKPIs] counts exactly the
    filtered Doctors that are not strategic. *)
Theorem updateKPIs_opportunities (rawData : list (list jsstring))
  (g g' : RandomSource) (doctors : list Doctor) (f : FilterState) :
  processRawData rawData g = (Ok doctors, g') ->
  highPriority (applyFilters doctors f) +
  List.length
    (filter (fun d => JsString.eqb (priority d) (str "strategic"))
            (applyFilters doctors f))
  = List.length (applyFilters doctors f).
Proof.
  intros Hrun. apply highPriority_complement. intros d Hd.
  rewrite applyFilters_passes, filter_In in Hd. destruct Hd as [Hd _].
  now apply (processRawData_priorities rawData g g' doctors).
Qed.

Lemma updateKPIs_opportunities_witness :
  highPriority
    (applyFilters
       [mkDoctor 2 (str "Dr. Teste") (str "cardiologia") (str "blindar")
          (ofZ 85) (ofZ 90) (str "strategic") (Some 2)] clearedFilters) +
  List.length
    (filter (fun d => JsString.eqb (priority d) (str "strategic"))
       (applyFilters
          [mkDoctor 2 (str "Dr. Teste") (str "cardiologia") (str "blindar")
             (ofZ 85) (ofZ 90) (str "strategic") (Some 2)] clearedFilters))
  = List.length
      (applyFilters
         [mkDoctor 2 (str "Dr. Teste") (str "cardiologia") (str "blindar")
            (ofZ 85) (ofZ 90) (str "strategic") (Some 2)] clearedFilters).
Proof.
  apply (updateKPIs_opportunities scenarioA_shifted halves halves).
  vm_compute. reflexivity.
Defined.
